(** * aumai-toolemu: the response-selection and call-recording engine

    A shallow embedding of [aumai_toolemu/models.py] and of the class
    [ToolEmulator] of [aumai_toolemu/core.py], followed by the properties
    of the engine.

    Modelling choices.
    - Python [float] is IEEE binary64: Rocq's primitive floats.
    - Python [int] is unbounded: [Z].
    - [dict[str, X]] is [gmap string X]; the dictionaries owned by the
      emulator ([_mocks], [_sequence_positions]) never leave it and are
      held by value.
    - The list [_recorded_calls] is a Python list object: it lives in a
      store of list objects and the emulator holds its location, so that
      the copy made by [get_recorded_calls] can be told from the original.
    - [random.random()], [random.choice], [datetime.now] and what
      [time.sleep] does with its argument belong to the platform: they are
      read from an environment record that is an input of every call.
    - A float object has an identity, which Python's [==] on containers
      looks at before the value.
    - Exceptions are values of type [exn]; every method is a computation
      in a state-and-exception monad. *)

From Stdlib Require Import ZArith String List Bool Lia.
From Stdlib Require Import PrimFloat SpecFloat FloatOps.
From stdpp Require Import gmap strings list fin_maps.

Local Open Scope string_scope.
Local Open Scope Z_scope.

(** ** Payload values: what a JSON document can hold *)

#[local] Set Warnings "-register-all".

Inductive pyobj : Type :=
| PNone
| PBool (b : bool)
| PInt (z : Z)
| PFloat (f : float) (obj : positive)
| PStr (s : string)
| PList (l : list pyobj)
| PDict (d : list (string * pyobj)).

(** [int == float] in Python compares the exact values. *)
Definition float_eq_int (f : float) (z : Z) : bool :=
  match Prim2SF f with
  | S754_zero _ => z =? 0
  | S754_finite s m e =>
      let mz := if s then Z.neg m else Z.pos m in
      if 0 <=? e then z =? mz * 2 ^ e
      else (mz mod 2 ^ (- e) =? 0) && (z =? mz / 2 ^ (- e))
  | S754_infinity _ => false
  | S754_nan => false
  end.

Fixpoint assoc (k : string) (d : list (string * pyobj)) : option pyobj :=
  match d with
  | [] => None
  | (k', v) :: d' => if String.eqb k k' then Some v else assoc k d'
  end.

(** [x is y], where it can differ from [x == y]: a float object is
    [PFloat f obj], with [obj] the identity of the object, and only a NaN is
    an object that differs from itself under [==].  Two values are the same
    float object when identity and bits agree. *)
Definition same_object (a b : pyobj) : bool :=
  match a, b with
  | PFloat f i, PFloat g j => (i =? j)%positive && PrimFloat.Leibniz.eqb f g
  | _, _ => false
  end.

(** Python's [==] on payload values.  [bool] is a subclass of [int], so
    [True == 1]; numbers compare by value across [int] and [float], and
    NaN differs from itself.  Lists compare element by element and dicts,
    whose keys are distinct, key by key whatever the order; inside a
    container two elements are equal when they are the same object or
    compare equal, so that a NaN object shared by both sides counts as
    equal there. *)
Fixpoint py_eq (a b : pyobj) : bool :=
  match a, b with
  | PNone, PNone => true
  | PBool x, PBool y => Z.b2z x =? Z.b2z y
  | PBool x, PInt y => Z.b2z x =? y
  | PInt x, PBool y => x =? Z.b2z y
  | PInt x, PInt y => x =? y
  | PBool x, PFloat g _ => float_eq_int g (Z.b2z x)
  | PInt x, PFloat g _ => float_eq_int g x
  | PFloat f _, PBool y => float_eq_int f (Z.b2z y)
  | PFloat f _, PInt y => float_eq_int f y
  | PFloat f _, PFloat g _ => PrimFloat.eqb f g
  | PStr s, PStr t => String.eqb s t
  | PList l, PList l' =>
      (fix go (l l' : list pyobj) {struct l} : bool :=
         match l, l' with
         | [], [] => true
         | x :: xs, y :: ys => (same_object x y || py_eq x y) && go xs ys
         | _, _ => false
         end) l l'
  | PDict d, PDict d' =>
      (length d =? length d')%nat &&
      (fix go (d : list (string * pyobj)) {struct d} : bool :=
         match d with
         | [] => true
         | (k, v) :: rest =>
             match assoc k d' with
             | Some v' => same_object v v' || py_eq v v'
             | None => false
             end && go rest
         end) d
  | _, _ => false
  end.

(** ** models.py *)

Record MockResponse : Type := mkMockResponse {
  status_code : Z;
  body : gmap string pyobj;
  latency_ms : float;
  headers : gmap string string
}.

(** [MockResponse(status_code=c, body=b)]: the other fields take their
    defaults. *)
Definition MockResponse_of (c : Z) (b : gmap string pyobj) : MockResponse :=
  mkMockResponse c b 0%float ∅.

Module MockBehavior.
Inductive t : Type := static | sequential | random | error | conditional.

#[global] Instance eq_dec : EqDecision t.
Proof. solve_decision. Defined.
End MockBehavior.

Record ToolMock : Type := mkToolMock {
  tool_name : string;
  behavior : MockBehavior.t;
  responses : list MockResponse;
  error_rate : float;
  conditions : option (gmap string pyobj)
}.

Record EmulatorConfig : Type := mkEmulatorConfig {
  mocks : list ToolMock;
  default_latency_ms : float;
  record_calls : bool
}.

(** [timestamp] is the clock reading, in microseconds since the epoch. *)
Record RecordedCall : Type := mkRecordedCall {
  call_tool_name : string;
  call_input_data : gmap string pyobj;
  call_response : MockResponse;
  call_timestamp : Z
}.

(** The field validators of models.py, as predicates on built values. *)
Definition status_code_must_be_valid (value : Z) : bool :=
  (100 <=? value) && (value <=? 599).

Definition latency_must_be_non_negative (value : float) : bool :=
  negb (PrimFloat.ltb value 0).

Definition error_rate_must_be_fraction (value : float) : bool :=
  PrimFloat.leb 0 value && PrimFloat.leb value 1.

(** ** The interpreter state

    [loc] names a Python list object.  [heap] holds every list of
    recorded calls that exists: the emulator's own and the copies handed
    out by [get_recorded_calls].  [slept] is the trace of the arguments
    passed to [time.sleep], oldest first. *)

Definition loc := positive.

Record ToolEmulator : Type := mkToolEmulator {
  _config : EmulatorConfig;
  _mocks : gmap string ToolMock;
  _sequence_positions : gmap string Z;
  _recorded_calls : loc
}.

Record State : Type := mkState {
  self : ToolEmulator;
  heap : gmap loc (list RecordedCall);
  slept : list float
}.

Inductive exn : Type :=
| ToolNotFoundError (name : string)
| IndexError
| ZeroDivisionError
| OverflowError
| ValueError.

(** What a call reads from outside the program: the value of
    [random.random()], the raw integer behind [random.choice], the clock,
    and what [time.sleep] raises for an argument, if anything. *)
Record Env : Type := mkEnvWith {
  random_random : float;
  random_bits : Z;
  now : Z;
  sleep_raises : float -> option exn
}.

(** [time.sleep] of CPython on a 64-bit POSIX platform: the argument is
    turned into nanoseconds, which must be a number and fit a signed
    64-bit integer, and must not be negative. *)
Definition time_sleep_raises (seconds : float) : option exn :=
  if negb (PrimFloat.eqb seconds seconds) then Some ValueError
  else if negb (PrimFloat.leb (-9223372036854775808) (seconds * 1000000000)
                && PrimFloat.ltb (seconds * 1000000000) 9223372036854775808)
  then Some OverflowError
  else if PrimFloat.ltb seconds 0 then Some ValueError
  else None.

(** An environment on that platform. *)
Definition mkEnv (draw : float) (bits : Z) (clock : Z) : Env :=
  mkEnvWith draw bits clock time_sleep_raises.

(** ** A state-and-exception monad *)

Definition M (A : Type) : Type := State -> (exn + A) * State.

Definition ret {A} (x : A) : M A := fun s => (inr x, s).

Definition raise {A} (e : exn) : M A := fun s => (inl e, s).

Definition bind {A B} (c : M A) (k : A -> M B) : M B :=
  fun s =>
    match c s with
    | (inl e, s') => (inl e, s')
    | (inr x, s') => k x s'
    end.

Definition gets {A} (f : State -> A) : M A := fun s => (inr (f s), s).

Definition modify (f : State -> State) : M unit := fun s => (inr tt, f s).

Notation "'let!' x ':=' c 'in' k" := (bind c (fun x => k))
  (at level 10, x name, c at level 100, k at level 200).
Notation "c ';;;' k" := (bind c (fun _ => k))
  (at level 100, k at level 200, right associativity).

(** Field updates of the emulator object. *)
Definition set_mocks (f : gmap string ToolMock -> gmap string ToolMock)
    (s : State) : State :=
  mkState
    (mkToolEmulator (_config (self s)) (f (_mocks (self s)))
       (_sequence_positions (self s)) (_recorded_calls (self s)))
    (heap s) (slept s).

Definition set_sequence_positions (f : gmap string Z -> gmap string Z)
    (s : State) : State :=
  mkState
    (mkToolEmulator (_config (self s)) (_mocks (self s))
       (f (_sequence_positions (self s))) (_recorded_calls (self s)))
    (heap s) (slept s).

(** The list object at a location, and its mutation in place. *)
Definition list_at (l : loc) (s : State) : list RecordedCall :=
  default [] (heap s !! l).

Definition list_mutate (l : loc)
    (f : list RecordedCall -> list RecordedCall) (s : State) : State :=
  mkState (self s) (<[l := f (list_at l s)]> (heap s)) (slept s).

(** [time.sleep(seconds)]: the argument goes on the trace, and the
    platform may refuse it. *)
Definition time_sleep (env : Env) (seconds : float) : M unit :=
  fun s =>
    let s' := mkState (self s) (heap s) (slept s ++ [seconds])%list in
    match sleep_raises env seconds with
    | Some e => (inl e, s')
    | None => (inr tt, s')
    end.

(** ** Python primitives *)

(** [l[i]]: a negative index counts from the end; out of range raises. *)
Definition py_getitem {A} (l : list A) (i : Z) : M A :=
  let n := Z.of_nat (length l) in
  let j := if i <? 0 then i + n else i in
  if (j <? 0) || (n <=? j) then raise IndexError
  else match l !! Z.to_nat j with
       | Some x => ret x
       | None => raise IndexError
       end.

(** [a % b] on integers: floored, and zero divisors raise. *)
Definition py_mod (a b : Z) : M Z :=
  if b =? 0 then raise ZeroDivisionError else ret (a mod b).

(** [d.get(k)]: [None] when the key is absent. *)
Definition dict_get (d : gmap string pyobj) (k : string) : pyobj :=
  default PNone (d !! k).

(** [random.choice(seq)]: [seq[randbelow(len(seq))]], with the bounded
    draw taken from the environment's raw integer. *)
Definition random_choice {A} (env : Env) (seq : list A) : M A :=
  if (length seq =? 0)%nat then raise IndexError
  else py_getitem seq (random_bits env mod Z.of_nat (length seq)).

(** ** core.py: class ToolEmulator *)

(** [ToolEmulator(config)], run in a program whose list objects are [h]:
    the dict comprehension keeps the last mock of each name, and the two
    containers start empty. *)
Definition __init__ (config : EmulatorConfig)
    (h : gmap loc (list RecordedCall)) : State :=
  let l := fresh (dom h) in
  mkState
    (mkToolEmulator config
       (foldl (fun d m => <[tool_name m := m]> d) ∅ (mocks config))
       ∅ l)
    (<[l := []]> h) [].

Definition injected_error (mock : ToolMock) : MockResponse :=
  MockResponse_of 500
    {[ "error" := PStr "injected_error"; "tool" := PStr (tool_name mock) ]}.

Definition tool_error (mock : ToolMock) : MockResponse :=
  MockResponse_of 500
    {[ "error" := PStr "tool_error"; "tool" := PStr (tool_name mock) ]}.

(** The guard of the fault-injection branch:
    [mock.error_rate > 0 and random.random() < mock.error_rate]. *)
Definition fault_injected (env : Env) (mock : ToolMock) : bool :=
  PrimFloat.ltb 0 (error_rate mock) &&
  PrimFloat.ltb (random_random env) (error_rate mock).

(** [all(input_data.get(k) == v for k, v in mock.conditions.items())] *)
Definition matched (conds input_data : gmap string pyobj) : bool :=
  forallb (fun kv => py_eq (dict_get input_data (fst kv)) (snd kv))
    (map_to_list conds).

(** The loop of [_match_conditional]: the first response of the pool for
    which [matched] holds, if the loop returns at all. *)
Fixpoint match_loop (conds input_data : gmap string pyobj)
    (pool : list MockResponse) : option MockResponse :=
  match pool with
  | [] => None
  | response :: rest =>
      if matched conds input_data then Some response
      else match_loop conds input_data rest
  end.

(** The guard [conditions is None or not responses] is split on its first
    disjunct, so that the mapping is at hand below it. *)
Definition _match_conditional (mock : ToolMock)
    (input_data : gmap string pyobj) : M MockResponse :=
  match conditions mock with
  | None =>
      if (length (responses mock) =? 0)%nat then ret (MockResponse_of 200 ∅)
      else py_getitem (responses mock) 0
  | Some conds =>
      if (length (responses mock) =? 0)%nat then ret (MockResponse_of 200 ∅)
      else
        match match_loop conds input_data (responses mock) with
        | Some response => ret response
        | None => py_getitem (responses mock) (-1)
        end
  end.

Definition _select_response (env : Env) (mock : ToolMock)
    (input_data : gmap string pyobj) : M MockResponse :=
  if fault_injected env mock then ret (injected_error mock)
  else if decide (behavior mock = MockBehavior.error) then
    ret (tool_error mock)
  else if (length (responses mock) =? 0)%nat then
    ret (MockResponse_of 200 ∅)
  else if decide (behavior mock = MockBehavior.static) then
    py_getitem (responses mock) 0
  else if decide (behavior mock = MockBehavior.sequential) then
    let! pos := gets (fun s =>
      default 0 (_sequence_positions (self s) !! tool_name mock)) in
    let! i := py_mod pos (Z.of_nat (length (responses mock))) in
    let! response := py_getitem (responses mock) i in
    modify (set_sequence_positions
              (fun d => <[tool_name mock := pos + 1]> d)) ;;;
    ret response
  else if decide (behavior mock = MockBehavior.random) then
    random_choice env (responses mock)
  else if decide (behavior mock = MockBehavior.conditional) then
    _match_conditional mock input_data
  else py_getitem (responses mock) 0.

Definition call (env : Env) (name : string)
    (input_data : gmap string pyobj) : M MockResponse :=
  let! mock := gets (fun s => _mocks (self s) !! name) in
  match mock with
  | None => raise (ToolNotFoundError name)
  | Some mock =>
      let! response := _select_response env mock input_data in
      let! config := gets (fun s => _config (self s)) in
      let latency :=
        if PrimFloat.ltb 0 (latency_ms response) then latency_ms response
        else default_latency_ms config in
      (if PrimFloat.ltb 0 latency then time_sleep env (latency / 1000)%float
       else ret tt) ;;;
      (if record_calls config then
         modify (fun s =>
           list_mutate (_recorded_calls (self s))
             (fun l =>
                (l ++ [mkRecordedCall name input_data response (now env)])%list)
             s)
       else ret tt) ;;;
      ret response
  end.

(** [list(self._recorded_calls)]: a new list object with the same
    elements; the result is its location. *)
Definition get_recorded_calls : M loc :=
  fun s =>
    let l := fresh (dom (heap s)) in
    (inr l,
     mkState (self s)
       (<[l := list_at (_recorded_calls (self s)) s]> (heap s)) (slept s)).

Definition reset : M unit :=
  modify (fun s => list_mutate (_recorded_calls (self s)) (fun _ => []) s) ;;;
  modify (set_sequence_positions (fun _ => ∅)).

Definition add_mock (mock : ToolMock) : M unit :=
  modify (set_mocks (fun d => <[tool_name mock := mock]> d)).

(** ** Vocabulary of the properties *)

(** The sequential branch of [_select_response] is reached: no fault is
    injected, the policy is not [error], the pool is not empty and the
    policy is [sequential]. *)
Definition advances (env : Env) (mock : ToolMock) : bool :=
  negb (fault_injected env mock) &&
  negb (bool_decide (behavior mock = MockBehavior.error)) &&
  negb (length (responses mock) =? 0)%nat &&
  bool_decide (behavior mock = MockBehavior.sequential).

(** The tool's cursor, [0] if absent. *)
Definition cursor (name : string) (s : State) : Z :=
  default 0 (_sequence_positions (self s) !! name).

(** The state that [_select_response] leaves: only the sequential branch
    writes, and it writes the tool's cursor. *)
Definition select_state (env : Env) (mock : ToolMock) (s : State) : State :=
  if advances env mock then
    set_sequence_positions
      (fun d => <[tool_name mock := cursor (tool_name mock) s + 1]> d) s
  else s.

(** What [time.sleep] raises, if anything, in a call whose selection is
    [response]: the wait is the latency of the response when above zero,
    else the default latency, and nothing is slept when that is not above
    zero. *)
Definition wait_raises (env : Env) (config : EmulatorConfig)
    (response : MockResponse) : option exn :=
  let latency :=
    if PrimFloat.ltb 0 (latency_ms response) then latency_ms response
    else default_latency_ms config in
  if PrimFloat.ltb 0 latency then sleep_raises env (latency / 1000)%float
  else None.

(** How a call whose selection is [response] ends: it returns the
    response, unless [time.sleep] raised. *)
Definition call_outcome (env : Env) (config : EmulatorConfig)
    (response : MockResponse) : exn + MockResponse :=
  match wait_raises env config response with
  | Some e => inl e
  | None => inr response
  end.

(** What [call] does after the selection: the simulated latency, then,
    if the wait did not raise, the recording. *)
Definition finish (env : Env) (name : string)
    (input_data : gmap string pyobj) (response : MockResponse)
    (s : State) : State :=
  let config := _config (self s) in
  let latency :=
    if PrimFloat.ltb 0 (latency_ms response) then latency_ms response
    else default_latency_ms config in
  let s1 :=
    if PrimFloat.ltb 0 latency then
      mkState (self s) (heap s) (slept s ++ [(latency / 1000)%float])%list
    else s in
  match wait_raises env config response with
  | Some _ => s1
  | None =>
      if record_calls config then
        list_mutate (_recorded_calls (self s1))
          (fun l =>
             (l ++ [mkRecordedCall name input_data response (now env)])%list)
          s1
      else s1
  end.

(** The emulator's own log. *)
Definition log (s : State) : list RecordedCall :=
  list_at (_recorded_calls (self s)) s.

(** Every mock is stored under its own name. *)
Definition registry_ok (s : State) : Prop :=
  forall name mock, _mocks (self s) !! name = Some mock -> tool_name mock = name.

(** The emulator's list object exists. *)
Definition log_allocated (s : State) : Prop :=
  is_Some (heap s !! _recorded_calls (self s)).

(** The states a program can bring an emulator to: it constructs it, calls
    its four public methods, and mutates as it likes the lists that
    [get_recorded_calls] gave it, which are any list but the emulator's
    own. *)
Inductive reachable : State -> Prop :=
| reach_init config h : reachable (__init__ config h)
| reach_call env name input_data s :
    reachable s -> reachable (snd (call env name input_data s))
| reach_get_recorded_calls s :
    reachable s -> reachable (snd (get_recorded_calls s))
| reach_reset s : reachable s -> reachable (snd (reset s))
| reach_add_mock mock s : reachable s -> reachable (snd (add_mock mock s))
| reach_mutate l f s :
    reachable s -> l <> _recorded_calls (self s) ->
    reachable (list_mutate l f s).

(** A run of calls, each with its own environment reading, tool name and
    payload; an exception ends that call only. *)
Fixpoint run_calls (cs : list (Env * string * gmap string pyobj))
    (s : State) : list (exn + MockResponse) * State :=
  match cs with
  | [] => ([], s)
  | (env, name, input_data) :: rest =>
      let '(out, s1) := call env name input_data s in
      let '(outs, s2) := run_calls rest s1 in
      (out :: outs, s2)
  end.

(** The records that a run of calls with these outcomes must leave: one
    per call that returned, in call order. *)
Fixpoint records_of (cs : list (Env * string * gmap string pyobj))
    (outs : list (exn + MockResponse)) : list RecordedCall :=
  match cs, outs with
  | (env, name, input_data) :: cs', inr response :: outs' =>
      mkRecordedCall name input_data response (now env) :: records_of cs' outs'
  | _ :: cs', inl _ :: outs' => records_of cs' outs'
  | _, _ => []
  end.

(** Calls that all go to one tool. *)
Definition calls_to (name : string) (cs : list (Env * gmap string pyobj))
    : list (Env * string * gmap string pyobj) :=
  map (fun c => (fst c, name, snd c)) cs.

(** The match of 4.1.1 as the specification words it: the payload holds
    every key of the conditions, with an equal value. *)
Definition conditions_hold (conds input_data : gmap string pyobj) : Prop :=
  forall k v, conds !! k = Some v ->
    exists v', input_data !! k = Some v' /\ py_eq v' v = true.

(** The match as the code computes it: an absent key reads as [None]. *)
Definition get_conditions_hold (conds input_data : gmap string pyobj) : Prop :=
  forall k v, conds !! k = Some v -> py_eq (dict_get input_data k) v = true.

(** The state is one that [reset] or the constructor has just produced. *)
Definition just_reset (s0 : State) : Prop :=
  (exists s, s0 = snd (reset s)) \/ (exists config h, s0 = __init__ config h).

(** ** core.py: the handlers of [_build_fastapi_app]

    Each handler is the body of the route function, run on the emulator
    that the application wraps.  [HTTPException] is what the handler
    raises for the framework; any other exception, of [call] or of the
    construction of the answer, passes through.  The constructor of
    [JSONResponse] and pydantic's [model_dump] belong to the libraries and
    are taken as given. *)

Inductive handler_error : Type :=
| HTTPException (status : Z) (detail : string)
| Propagated (e : exn).

Record JSONResponse : Type := mkJSONResponse {
  content : gmap string pyobj;
  http_status : Z;
  http_headers : gmap string string
}.

Section Handlers.
(** [JSONResponse(content=..., status_code=..., headers=...)]: the
    constructor of the framework renders the answer and may raise. *)
Variable JSONResponse_new :
  gmap string pyobj -> Z -> gmap string string -> exn + JSONResponse.
Variable model_dump : RecordedCall -> pyobj.

(** [POST /tools/{tool_name}]; [payload or {}] replaces an absent or empty
    payload by the empty dict. *)
Definition call_tool (env : Env) (name : string)
    (payload : option (gmap string pyobj)) (s : State)
    : (handler_error + JSONResponse) * State :=
  let input_data : gmap string pyobj :=
    match payload with
    | Some d => if (size d =? 0)%nat then ∅ else d
    | None => ∅
    end in
  match call env name input_data s with
  | (inl (ToolNotFoundError _), s') =>
      (inl (HTTPException 404 ("Tool '" ++ name ++ "' not registered")), s')
  | (inl e, s') => (inl (Propagated e), s')
  | (inr response, s') =>
      match JSONResponse_new (body response) (status_code response)
              (headers response) with
      | inl e => (inl (Propagated e), s')
      | inr answer => (inr answer, s')
      end
  end.

(** [GET /calls] *)
Definition get_calls : M (list pyobj) :=
  let! l := get_recorded_calls in
  gets (fun s => map model_dump (list_at l s)).

End Handlers.

(** [DELETE /calls] *)
Definition reset_calls : M (gmap string string) :=
  reset ;;; ret {[ "status" := "reset" ]}.

(** [GET /health] *)
Definition health : M (gmap string string) :=
  ret {[ "status" := "ok" ]}.

(** ** Further vocabulary *)

(** Both field validators of [MockResponse] accept the response. *)
Definition MockResponse_valid (r : MockResponse) : bool :=
  status_code_must_be_valid (status_code r) &&
  latency_must_be_non_negative (latency_ms r).

(** What one call passes to [time.sleep], if anything, given the response
    it returns and the configured default. *)
Definition sleep_of (default_latency : float) (r : MockResponse)
    : list float :=
  if PrimFloat.ltb 0 (latency_ms r) then [(latency_ms r / 1000)%float]
  else if PrimFloat.ltb 0 default_latency then
    [(default_latency / 1000)%float]
  else [].

(** Among the calls of a run, those that go to the tool and are not
    fault-injected for this mock. *)
Fixpoint count_served (mock : ToolMock)
    (cs : list (Env * string * gmap string pyobj)) : nat :=
  match cs with
  | [] => 0
  | (env, name, _) :: rest =>
      ((if String.eqb name (tool_name mock) && negb (fault_injected env mock)
        then 1 else 0) + count_served mock rest)%nat
  end.

(** Every stored cursor is at least one. *)
Definition cursors_positive (s : State) : Prop :=
  forall name pos, _sequence_positions (self s) !! name = Some pos -> 1 <= pos.

(** The public methods as operations of a client program, and a run of
    them; a run gives what each operation returned to the client, which is
    something only for a [call]. *)
Inductive op : Type :=
| op_call (env : Env) (name : string) (input_data : gmap string pyobj)
| op_add_mock (mock : ToolMock)
| op_get_recorded_calls
| op_reset.

Definition run_op (o : op) (s : State)
    : option (exn + MockResponse) * State :=
  match o with
  | op_call env name input_data =>
      (Some (fst (call env name input_data s)),
       snd (call env name input_data s))
  | op_add_mock mock => (None, snd (add_mock mock s))
  | op_get_recorded_calls => (None, snd (get_recorded_calls s))
  | op_reset => (None, snd (reset s))
  end.

Fixpoint run_ops (os : list op) (s : State)
    : list (option (exn + MockResponse)) * State :=
  match os with
  | [] => ([], s)
  | o :: rest =>
      let '(outs, s2) := run_ops rest (snd (run_op o s)) in
      (fst (run_op o s) :: outs, s2)
  end.

(** The log that a run must leave, read off what the client saw: a call
    that returned adds its record when recording is on, a reset starts
    over, nothing else counts. *)
Fixpoint log_after (record : bool) (os : list op)
    (outs : list (option (exn + MockResponse))) (acc : list RecordedCall)
    : list RecordedCall :=
  match os, outs with
  | op_call env name input_data :: os', Some (inr r) :: outs' =>
      log_after record os' outs'
        (if record
         then (acc ++ [mkRecordedCall name input_data r (now env)])%list
         else acc)
  | op_reset :: os', _ :: outs' => log_after record os' outs' []
  | _ :: os', _ :: outs' => log_after record os' outs' acc
  | _, _ => acc
  end.

(** ** Fixtures of tests/conftest.py *)

Definition ok_response : MockResponse :=
  MockResponse_of 200 {[ "result" := PStr "ok" ]}.

Definition error_response : MockResponse :=
  MockResponse_of 500 {[ "error" := PStr "server_error" ]}.

Definition static_mock : ToolMock :=
  mkToolMock "static_tool" MockBehavior.static [ok_response] 0%float None.

Definition sequential_mock : ToolMock :=
  mkToolMock "seq_tool" MockBehavior.sequential
    [ MockResponse_of 200 {[ "step" := PInt 1 ]};
      MockResponse_of 200 {[ "step" := PInt 2 ]};
      MockResponse_of 201 {[ "step" := PInt 3 ]} ]
    0%float None.

Definition error_mock : ToolMock :=
  mkToolMock "error_tool" MockBehavior.error [MockResponse_of 200 ∅]
    0%float None.

Definition prod_response : MockResponse :=
  MockResponse_of 200 {[ "environment" := PStr "prod" ]}.

Definition other_response : MockResponse :=
  MockResponse_of 200 {[ "environment" := PStr "other" ]}.

(** The fixture [conditional_mock], with its conditions left open. *)
Definition conditional_mock_with (conds : gmap string pyobj) : ToolMock :=
  mkToolMock "cond_tool" MockBehavior.conditional
    [prod_response; other_response] 0%float (Some conds).

Definition conditional_mock : ToolMock :=
  conditional_mock_with {[ "env" := PStr "production" ]}.

(** An emulator that holds one mock, built in an empty program. *)
Definition emulator_of (mock : ToolMock) (record : bool) : State :=
  __init__ (mkEmulatorConfig [mock] 0%float record) ∅.

Definition env0 : Env := mkEnv 0.5%float 0 0.

Definition random_mock : ToolMock :=
  mkToolMock "rand_tool" MockBehavior.random
    [ MockResponse_of 200 {[ "value" := PStr "a" ]};
      MockResponse_of 200 {[ "value" := PStr "b" ]} ]
    0%float None.

(** The mock of [test_response_latency_used_when_nonzero]. *)
Definition latency_mock : ToolMock :=
  mkToolMock "latency_tool" MockBehavior.static
    [mkMockResponse 200 ∅ 100%float ∅] 0%float None.

(** The fixture [multi_mock_config]. *)
Definition multi_mock_config : EmulatorConfig :=
  mkEmulatorConfig [static_mock; sequential_mock; error_mock] 0%float true.

(** ** Python primitives: when they return *)

Lemma py_getitem_in_range {A} (l : list A) (i : Z) :
  0 <= i < Z.of_nat (length l) ->
  exists x, l !! Z.to_nat i = Some x /\ forall s, py_getitem l i s = (inr x, s).
Proof.
  intros Hi. unfold py_getitem. cbv zeta.
  assert ((i <? 0) = false) as -> by (apply Z.ltb_ge; lia).
  assert ((i <? 0) || (Z.of_nat (length l) <=? i) = false) as ->.
  { apply orb_false_iff. split; [apply Z.ltb_ge|apply Z.leb_gt]; lia. }
  destruct (l !! Z.to_nat i) as [x|] eqn:Hx.
  - exists x. split; [reflexivity|]. intros s. reflexivity.
  - apply lookup_ge_None in Hx. lia.
Qed.

Lemma py_getitem_first {A} (x : A) (rest : list A) (s : State) :
  py_getitem (x :: rest) 0 s = (inr x, s).
Proof.
  destruct (py_getitem_in_range (x :: rest) 0) as (y & Hy & ->).
  - simpl. lia.
  - simpl in Hy. congruence.
Qed.

Lemma py_getitem_last {A} (l : list A) (x : A) (s : State) :
  last l = Some x -> py_getitem l (-1) s = (inr x, s).
Proof.
  intros Hl. rewrite last_lookup in Hl.
  assert (0 < length l)%nat by (apply lookup_lt_Some in Hl; lia).
  unfold py_getitem. cbv zeta. change (-1 <? 0) with true. cbv iota.
  assert ((-1 + Z.of_nat (length l) <? 0)
          || (Z.of_nat (length l) <=? -1 + Z.of_nat (length l)) = false) as ->.
  { apply orb_false_iff. split; [apply Z.ltb_ge|apply Z.leb_gt]; lia. }
  replace (Z.to_nat (-1 + Z.of_nat (length l))) with (pred (length l)) by lia.
  rewrite Hl. reflexivity.
Qed.

Lemma py_mod_pos (a b : Z) (s : State) :
  0 < b -> py_mod a b s = (inr (a mod b), s).
Proof.
  intros Hb. unfold py_mod.
  destruct (Z.eqb_spec b 0); [lia|reflexivity].
Qed.

Lemma random_choice_returns {A} (env : Env) (seq : list A) :
  seq <> [] ->
  exists x, x ∈ seq /\ forall s, random_choice env seq s = (inr x, s).
Proof.
  intros Hne. unfold random_choice.
  destruct seq as [|a seq']; [congruence|].
  change (length (a :: seq') =? 0)%nat with false. cbv iota.
  destruct (py_getitem_in_range (a :: seq')
              (random_bits env mod Z.of_nat (length (a :: seq'))))
    as (x & Hx & Hget).
  - apply Z.mod_pos_bound. simpl length. lia.
  - exists x. split; [|exact Hget]. eapply list_elem_of_lookup_2, Hx.
Qed.

(** ** The selection engine, branch by branch *)

Lemma length_eqb_0_false {A} (l : list A) :
  l <> [] -> (length l =? 0)%nat = false.
Proof. destruct l; [congruence|reflexivity]. Qed.

Lemma matched_spec (conds input_data : gmap string pyobj) :
  matched conds input_data = true <-> get_conditions_hold conds input_data.
Proof.
  unfold matched, get_conditions_hold. rewrite forallb_forall. split.
  - intros H k v Hkv.
    apply (H (k, v)), list_elem_of_In, elem_of_map_to_list, Hkv.
  - intros H [k v] Hin. simpl.
    apply H, elem_of_map_to_list, list_elem_of_In, Hin.
Qed.

Lemma match_loop_spec (conds input_data : gmap string pyobj)
    (pool : list MockResponse) :
  match_loop conds input_data pool =
  if matched conds input_data then head pool else None.
Proof.
  induction pool as [|r pool IH]; simpl.
  - destruct (matched conds input_data); reflexivity.
  - rewrite IH. destruct (matched conds input_data); reflexivity.
Qed.

Lemma match_conditional_some mock input_data conds s :
  conditions mock = Some conds ->
  responses mock <> [] ->
  exists r,
    _match_conditional mock input_data s = (inr r, s) /\
    (if matched conds input_data then head (responses mock) = Some r
     else last (responses mock) = Some r).
Proof.
  intros Hc Hne. unfold _match_conditional. rewrite Hc.
  rewrite (length_eqb_0_false _ Hne), match_loop_spec.
  destruct (matched conds input_data).
  - destruct (responses mock) as [|r rest]; [congruence|].
    exists r. split; reflexivity.
  - destruct (last (responses mock)) as [r|] eqn:Hl.
    + exists r. split; [apply py_getitem_last, Hl|reflexivity].
    + apply last_None in Hl. congruence.
Qed.

Lemma match_conditional_none mock input_data r rest s :
  conditions mock = None ->
  responses mock = r :: rest ->
  _match_conditional mock input_data s = (inr r, s).
Proof.
  intros Hc He. unfold _match_conditional. rewrite Hc, He. simpl.
  apply py_getitem_first.
Qed.

Section Selection.
Context (env : Env) (mock : ToolMock) (input_data : gmap string pyobj)
  (s : State).

Lemma select_fault :
  fault_injected env mock = true ->
  _select_response env mock input_data s = (inr (injected_error mock), s).
Proof. intros H. unfold _select_response. rewrite H. reflexivity. Qed.

Lemma select_error :
  fault_injected env mock = false ->
  behavior mock = MockBehavior.error ->
  _select_response env mock input_data s = (inr (tool_error mock), s).
Proof.
  intros H Hb. unfold _select_response. rewrite H.
  destruct (decide (behavior mock = MockBehavior.error)); [reflexivity|congruence].
Qed.

Lemma select_empty :
  fault_injected env mock = false ->
  behavior mock <> MockBehavior.error ->
  responses mock = [] ->
  _select_response env mock input_data s = (inr (MockResponse_of 200 ∅), s).
Proof.
  intros H Hb He. unfold _select_response. rewrite H.
  destruct (decide (behavior mock = MockBehavior.error)); [congruence|].
  rewrite He. reflexivity.
Qed.

Lemma select_static r rest :
  fault_injected env mock = false ->
  behavior mock = MockBehavior.static ->
  responses mock = r :: rest ->
  _select_response env mock input_data s = (inr r, s).
Proof.
  intros H Hb He. unfold _select_response. rewrite H, Hb, He.
  simpl. apply py_getitem_first.
Qed.

Lemma select_sequential :
  fault_injected env mock = false ->
  behavior mock = MockBehavior.sequential ->
  responses mock <> [] ->
  exists r,
    responses mock !!
      Z.to_nat (cursor (tool_name mock) s mod Z.of_nat (length (responses mock)))
      = Some r /\
    _select_response env mock input_data s =
      (inr r,
       set_sequence_positions
         (fun d => <[tool_name mock := cursor (tool_name mock) s + 1]> d) s).
Proof.
  intros H Hb Hne. unfold _select_response. rewrite H, Hb.
  rewrite (length_eqb_0_false _ Hne). simpl.
  assert (0 < Z.of_nat (length (responses mock))) as Hlen.
  { destruct (responses mock); [congruence|simpl; lia]. }
  destruct (py_getitem_in_range (responses mock)
              (cursor (tool_name mock) s mod Z.of_nat (length (responses mock))))
    as (r & Hr & Hget).
  { apply Z.mod_pos_bound, Hlen. }
  exists r. split; [exact Hr|].
  unfold bind, gets. rewrite (py_mod_pos _ _ _ Hlen).
  fold (cursor (tool_name mock) s). rewrite Hget. reflexivity.
Qed.

Lemma select_random :
  fault_injected env mock = false ->
  behavior mock = MockBehavior.random ->
  responses mock <> [] ->
  exists r, r ∈ responses mock /\
    _select_response env mock input_data s = (inr r, s).
Proof.
  intros H Hb Hne. unfold _select_response. rewrite H, Hb.
  rewrite (length_eqb_0_false _ Hne). simpl.
  destruct (random_choice_returns env (responses mock) Hne) as (r & Hin & Hr).
  exists r. split; [exact Hin|apply Hr].
Qed.

Lemma select_conditional :
  fault_injected env mock = false ->
  behavior mock = MockBehavior.conditional ->
  responses mock <> [] ->
  _select_response env mock input_data s = _match_conditional mock input_data s.
Proof.
  intros H Hb Hne. unfold _select_response. rewrite H, Hb.
  rewrite (length_eqb_0_false _ Hne). reflexivity.
Qed.

(** [_select_response] always returns, and writes nothing but the cursor of
    the mock it serves. *)
Lemma select_response_returns :
  exists r,
    _select_response env mock input_data s = (inr r, select_state env mock s).
Proof.
  unfold select_state, advances.
  destruct (fault_injected env mock) eqn:Hf.
  { exists (injected_error mock). simpl. apply select_fault, Hf. }
  destruct (decide (behavior mock = MockBehavior.error)) as [Hb|Hb].
  { exists (tool_error mock). rewrite (bool_decide_eq_true_2 _ Hb). simpl.
    apply select_error; assumption. }
  rewrite (bool_decide_eq_false_2 _ Hb).
  destruct (responses mock) as [|r0 rest] eqn:Hr.
  { exists (MockResponse_of 200 ∅). simpl. apply select_empty; assumption. }
  assert (responses mock <> []) as Hne by (rewrite Hr; discriminate).
  change (length (r0 :: rest) =? 0)%nat with false. simpl negb. simpl andb.
  destruct (behavior mock) eqn:Hbeh; try congruence.
  - exists r0. rewrite bool_decide_eq_false_2 by discriminate.
    eapply select_static; eassumption.
  - rewrite bool_decide_eq_true_2 by reflexivity.
    destruct (select_sequential Hf Hbeh Hne)
      as (r & _ & Hsel).
    exists r. exact Hsel.
  - rewrite bool_decide_eq_false_2 by discriminate.
    destruct (select_random Hf Hbeh Hne) as (r & _ & Hsel).
    exists r. exact Hsel.
  - rewrite bool_decide_eq_false_2 by discriminate.
    rewrite (select_conditional Hf Hbeh Hne).
    destruct (conditions mock) as [conds|] eqn:Hc.
    + destruct (match_conditional_some mock input_data conds s Hc Hne)
        as (r & Hm & _).
      exists r. exact Hm.
    + exists r0. eapply match_conditional_none; eassumption.
Qed.

End Selection.

(** ** [call], in two cases *)

Lemma call_unregistered env name input_data s :
  _mocks (self s) !! name = None ->
  call env name input_data s = (inl (ToolNotFoundError name), s).
Proof. intros H. unfold call, bind, gets. rewrite H. reflexivity. Qed.

Lemma call_registered env name input_data s mock r s1 :
  _mocks (self s) !! name = Some mock ->
  _select_response env mock input_data s = (inr r, s1) ->
  call env name input_data s =
  (call_outcome env (_config (self s1)) r, finish env name input_data r s1).
Proof.
  intros H Hsel. unfold call, bind, gets. rewrite H, Hsel.
  unfold finish, call_outcome, wait_raises, time_sleep, modify, ret.
  cbv zeta.
  destruct (PrimFloat.ltb 0
              (if PrimFloat.ltb 0 (latency_ms r) then latency_ms r
               else default_latency_ms (_config (self s1)))).
  - destruct (sleep_raises env _); [reflexivity|].
    simpl. destruct (record_calls (_config (self s1))); reflexivity.
  - destruct (record_calls (_config (self s1))); reflexivity.
Qed.

(** ** What the two state transformers keep *)

Lemma select_state_self env mock s :
  _config (self (select_state env mock s)) = _config (self s) /\
  _mocks (self (select_state env mock s)) = _mocks (self s) /\
  _recorded_calls (self (select_state env mock s)) = _recorded_calls (self s) /\
  heap (select_state env mock s) = heap s /\
  slept (select_state env mock s) = slept s.
Proof. unfold select_state. destruct (advances env mock); repeat split. Qed.

Lemma call_spec env name input_data s :
  match _mocks (self s) !! name with
  | None => call env name input_data s = (inl (ToolNotFoundError name), s)
  | Some mock =>
      exists r,
        _select_response env mock input_data s =
          (inr r, select_state env mock s) /\
        call env name input_data s =
          (call_outcome env (_config (self s)) r,
           finish env name input_data r (select_state env mock s))
  end.
Proof.
  destruct (_mocks (self s) !! name) as [mock|] eqn:Hm.
  - destruct (select_response_returns env mock input_data s) as (r & Hr).
    exists r. split; [exact Hr|].
    rewrite (call_registered _ _ _ _ _ _ _ Hm Hr).
    destruct (select_state_self env mock s) as (-> & _). reflexivity.
  - apply call_unregistered, Hm.
Qed.

Lemma select_state_cursor env mock s name :
  _sequence_positions (self (select_state env mock s)) !! name =
  if advances env mock && bool_decide (name = tool_name mock)
  then Some (cursor (tool_name mock) s + 1)
  else _sequence_positions (self s) !! name.
Proof.
  unfold select_state. destruct (advances env mock); simpl; [|reflexivity].
  destruct (decide (name = tool_name mock)) as [->|Hne].
  - rewrite bool_decide_eq_true_2 by reflexivity. apply lookup_insert_eq.
  - rewrite bool_decide_eq_false_2 by assumption.
    apply lookup_insert_ne. congruence.
Qed.

Lemma finish_self env name input_data r s :
  self (finish env name input_data r s) = self s.
Proof.
  unfold finish.
  destruct (PrimFloat.ltb 0 _); destruct (wait_raises _ _ _);
    try destruct (record_calls _); reflexivity.
Qed.

Lemma list_at_mutate l f s : list_at l (list_mutate l f s) = f (list_at l s).
Proof. unfold list_at, list_mutate. simpl. rewrite lookup_insert_eq. reflexivity. Qed.

Lemma list_at_mutate_ne l l' f s :
  l <> l' -> list_at l' (list_mutate l f s) = list_at l' s.
Proof.
  intros Hne. unfold list_at, list_mutate. simpl.
  rewrite lookup_insert_ne by assumption. reflexivity.
Qed.

Lemma finish_log env name input_data r s :
  log (finish env name input_data r s) =
  (log s ++
   if record_calls (_config (self s)) then
     match call_outcome env (_config (self s)) r with
     | inr _ => [mkRecordedCall name input_data r (now env)]
     | inl _ => []
     end
   else [])%list.
Proof.
  unfold log. rewrite finish_self. unfold finish, call_outcome.
  set (s1 := if PrimFloat.ltb 0 _ then _ else s).
  assert (self s1 = self s /\ heap s1 = heap s) as [Hs Hh].
  { subst s1. destruct (PrimFloat.ltb 0 _); split; reflexivity. }
  assert (list_at (_recorded_calls (self s)) s1 =
          list_at (_recorded_calls (self s)) s) as Hl.
  { unfold list_at. rewrite Hh. reflexivity. }
  destruct (wait_raises env (_config (self s)) r).
  - rewrite Hl. destruct (record_calls _); rewrite app_nil_r; reflexivity.
  - destruct (record_calls (_config (self s))).
    + rewrite Hs, list_at_mutate, Hl. reflexivity.
    + rewrite Hl, app_nil_r. reflexivity.
Qed.

Lemma finish_dom env name input_data r s :
  log_allocated s ->
  dom (heap (finish env name input_data r s)) = dom (heap s).
Proof.
  unfold log_allocated. intros Hin. unfold finish.
  set (s1 := if PrimFloat.ltb 0 _ then _ else s).
  assert (self s1 = self s /\ heap s1 = heap s) as [Hs Hh].
  { subst s1. destruct (PrimFloat.ltb 0 _); split; reflexivity. }
  destruct (wait_raises env (_config (self s)) r); [rewrite Hh; reflexivity|].
  destruct (record_calls (_config (self s))); [|rewrite Hh; reflexivity].
  unfold list_mutate. simpl. rewrite dom_insert_L, Hs, Hh.
  apply subseteq_union_1_L, singleton_subseteq_l, elem_of_dom, Hin.
Qed.

(** ** Fault injection at the ends of the range *)

Lemma fault_injected_rate_0 env mock :
  error_rate mock = 0%float -> fault_injected env mock = false.
Proof. intros H. unfold fault_injected. rewrite H. reflexivity. Qed.

Lemma fault_injected_rate_1 env mock :
  error_rate mock = 1%float ->
  PrimFloat.ltb (random_random env) 1 = true ->
  fault_injected env mock = true.
Proof. intros H Hd. unfold fault_injected. rewrite H, Hd. reflexivity. Qed.

(** ** Conditional matching *)

Lemma matched_empty (input_data : gmap string pyobj) :
  matched ∅ input_data = true.
Proof. unfold matched. rewrite map_to_list_empty. reflexivity. Qed.

Lemma conditions_hold_get (conds input_data : gmap string pyobj) :
  conditions_hold conds input_data -> get_conditions_hold conds input_data.
Proof.
  intros H k v Hkv. destruct (H k v Hkv) as (v' & Hv' & Heq).
  unfold dict_get. rewrite Hv'. exact Heq.
Qed.

Lemma get_conditions_hold_no_null (conds input_data : gmap string pyobj) :
  (forall k v, conds !! k = Some v -> py_eq PNone v = false) ->
  get_conditions_hold conds input_data -> conditions_hold conds input_data.
Proof.
  intros Hnn H k v Hkv. specialize (H k v Hkv). unfold dict_get in H.
  destruct (input_data !! k) as [v'|] eqn:Hv'.
  - exists v'. split; [reflexivity|exact H].
  - change (py_eq PNone v = true) in H.
    rewrite (Hnn k v Hkv) in H. discriminate.
Qed.

Lemma response_neq_by_body (r1 r2 : MockResponse) (k : string) :
  body r1 !! k <> body r2 !! k -> r1 <> r2.
Proof. intros H ->. apply H. reflexivity. Qed.

(** ** The cases of tests/test_core.py on the fixtures *)

Example test_matching_condition_returns_first_response :
  fst (call env0 "cond_tool" {[ "env" := PStr "production" ]}
         (emulator_of conditional_mock false)) = inr prod_response.
Proof. reflexivity. Qed.

Example test_non_matching_condition_returns_last_response :
  fst (call env0 "cond_tool" {[ "env" := PStr "staging" ]}
         (emulator_of conditional_mock false)) = inr other_response.
Proof. reflexivity. Qed.

Example test_empty_input_returns_last_response :
  fst (call env0 "cond_tool" ∅ (emulator_of conditional_mock false))
  = inr other_response.
Proof. reflexivity. Qed.

Example test_sequential_wraps_around :
  map (fun out => match out with inr r => status_code r | inl _ => 0 end)
    (fst (run_calls
            (calls_to "seq_tool" [(env0, ∅); (env0, ∅); (env0, ∅); (env0, ∅)])
            (emulator_of sequential_mock true)))
  = [200; 200; 201; 200].
Proof. reflexivity. Qed.

Example test_call_unknown_tool_raises :
  call env0 "nonexistent_tool" ∅ (emulator_of static_mock true)
  = (inl (ToolNotFoundError "nonexistent_tool"), emulator_of static_mock true).
Proof. reflexivity. Qed.

Example test_error_behavior_returns_500 :
  fst (call env0 "error_tool" ∅ (emulator_of error_mock true))
  = inr (tool_error error_mock).
Proof. reflexivity. Qed.

Example test_shared_nan_in_a_list_matches :
  let nan_list := PList [PFloat PrimFloat.nan 1] in
  fst (call env0 "cond_tool" {[ "k" := nan_list ]}
         (emulator_of (conditional_mock_with {[ "k" := nan_list ]}) false))
  = inr prod_response.
Proof. reflexivity. Qed.

Example test_nan_objects_differ :
  fst (call env0 "cond_tool" {[ "k" := PList [PFloat PrimFloat.nan 2] ]}
         (emulator_of
            (conditional_mock_with {[ "k" := PList [PFloat PrimFloat.nan 1] ]})
            false))
  = inr other_response /\
  fst (call env0 "cond_tool" {[ "k" := PFloat PrimFloat.nan 1 ]}
         (emulator_of
            (conditional_mock_with {[ "k" := PFloat PrimFloat.nan 1 ]}) false))
  = inr other_response.
Proof. split; reflexivity. Qed.

Example test_sleep_range :
  time_sleep_raises (100 / 1000)%float = None /\
  time_sleep_raises (PrimFloat.infinity / 1000)%float = Some OverflowError /\
  time_sleep_raises (10000000000000000 / 1000)%float = Some OverflowError.
Proof. repeat split. Qed.

(** ** Properties *)

(** C1, as amended.  A conditional mock whose [conditions] mapping is
    present but empty matches every payload (the [all] over no pair is
    true), so whenever no fault is injected the selection is the first
    element of a non-empty pool, for every input payload; [call] returns it,
    unless [time.sleep] raises for the simulated latency, and then [call]
    raises that error. *)
Theorem empty_conditions_return_first env name input_data s mock r rest :
  _mocks (self s) !! name = Some mock ->
  behavior mock = MockBehavior.conditional ->
  conditions mock = Some ∅ ->
  responses mock = r :: rest ->
  fault_injected env mock = false ->
  matched ∅ input_data = true /\
  _select_response env mock input_data s = (inr r, s) /\
  fst (call env name input_data s) = call_outcome env (_config (self s)) r /\
  (wait_raises env (_config (self s)) r = None ->
   fst (call env name input_data s) = inr r).
Proof.
  intros Hm Hb Hc Hr Hf. split; [apply matched_empty|].
  assert (responses mock <> []) as Hne by (rewrite Hr; discriminate).
  destruct (match_conditional_some mock input_data ∅ s Hc Hne) as (r' & Hsel & Hr').
  rewrite matched_empty, Hr in Hr'. simpl in Hr'. injection Hr' as <-.
  rewrite <- (select_conditional env mock input_data s Hf Hb Hne) in Hsel.
  split; [exact Hsel|].
  rewrite (call_registered _ _ _ _ _ _ _ Hm Hsel). simpl.
  split; [reflexivity|].
  intros Hw. unfold call_outcome. rewrite Hw. reflexivity.
Qed.

Lemma empty_conditions_return_first_witness :
  fst (call env0 "cond_tool" {[ "env" := PStr "staging" ]}
         (emulator_of (conditional_mock_with ∅) false)) = inr prod_response.
Proof.
  apply (empty_conditions_return_first env0 "cond_tool"
           {[ "env" := PStr "staging" ]}
           (emulator_of (conditional_mock_with ∅) false)
           (conditional_mock_with ∅) prod_response [other_response]);
    reflexivity.
Defined.

(** C1 as the specification states it fails: with empty conditions and the
    pool of the fixture, [call] does not return the last element. *)
Lemma empty_conditions_counterexample :
  let mock := conditional_mock_with ∅ in
  behavior mock = MockBehavior.conditional /\
  conditions mock = Some ∅ /\
  last (responses mock) = Some other_response /\
  fst (call env0 "cond_tool" ∅ (emulator_of mock false)) = inr prod_response /\
  fst (call env0 "cond_tool" ∅ (emulator_of mock false)) <> inr other_response.
Proof.
  cbv zeta. repeat split.
  change (fst (call env0 "cond_tool" ∅
            (emulator_of (conditional_mock_with ∅) false)))
    with (@inr exn _ prod_response).
  intros H.
  apply (response_neq_by_body prod_response other_response "environment").
  - vm_compute. discriminate.
  - congruence.
Qed.

(** C2, as amended.  For a conditional mock with conditions, a non-empty
    pool and error_rate 0, the selection never raises: it is the first
    element of the pool when [input_data.get(k) == v] for every pair
    [(k, v)] of the conditions, and the last element otherwise.  An absent
    key reads as [None]: when no condition value equals [None], this is the
    match of the specification (the payload holds every key with an equal
    value); a condition whose value is [None] is also met by an absent key.
    [call] returns the selection, unless [time.sleep] raises for the
    simulated latency, and then [call] raises that error. *)
Theorem conditional_match_selects env name input_data s mock conds :
  _mocks (self s) !! name = Some mock ->
  behavior mock = MockBehavior.conditional ->
  error_rate mock = 0%float ->
  conditions mock = Some conds ->
  responses mock <> [] ->
  exists r,
    _select_response env mock input_data s = (inr r, s) /\
    fst (call env name input_data s) = call_outcome env (_config (self s)) r /\
    (wait_raises env (_config (self s)) r = None ->
     fst (call env name input_data s) = inr r) /\
    (get_conditions_hold conds input_data -> head (responses mock) = Some r) /\
    (~ get_conditions_hold conds input_data -> last (responses mock) = Some r) /\
    ((forall k v, conds !! k = Some v -> py_eq PNone v = false) ->
     (conditions_hold conds input_data -> head (responses mock) = Some r) /\
     (~ conditions_hold conds input_data -> last (responses mock) = Some r)).
Proof.
  intros Hm Hb He Hc Hne.
  pose proof (fault_injected_rate_0 env mock He) as Hf.
  destruct (match_conditional_some mock input_data conds s Hc Hne)
    as (r & Hsel & Hr).
  rewrite <- (select_conditional env mock input_data s Hf Hb Hne) in Hsel.
  exists r. split; [exact Hsel|].
  rewrite (call_registered _ _ _ _ _ _ _ Hm Hsel). simpl.
  split; [reflexivity|]. split.
  { intros Hw. unfold call_outcome. rewrite Hw. reflexivity. }
  assert ((get_conditions_hold conds input_data -> head (responses mock) = Some r)
          /\ (~ get_conditions_hold conds input_data ->
              last (responses mock) = Some r)) as [Hyes Hno].
  { destruct (matched conds input_data) eqn:Hmatch.
    - split; [intros _; exact Hr|].
      intros Hn. exfalso. apply Hn, matched_spec, Hmatch.
    - split; [|intros _; exact Hr].
      intros Hy. apply matched_spec in Hy. congruence. }
  split; [exact Hyes|]. split; [exact Hno|].
  intros Hnn. split.
  - intros Hy. apply Hyes, conditions_hold_get, Hy.
  - intros Hn. apply Hno. intros Hg. apply Hn.
    apply get_conditions_hold_no_null; assumption.
Qed.

Lemma conditional_match_selects_witness :
  exists r,
    fst (call env0 "cond_tool" {[ "env" := PStr "staging" ]}
           (emulator_of conditional_mock false)) = inr r /\
    last (responses conditional_mock) = Some r.
Proof.
  destruct (conditional_match_selects env0 "cond_tool"
              {[ "env" := PStr "staging" ]}
              (emulator_of conditional_mock false) conditional_mock
              {[ "env" := PStr "production" ]})
    as (r & Hsel & _ & Hret & _ & Hlast & _).
  - reflexivity.
  - reflexivity.
  - reflexivity.
  - reflexivity.
  - discriminate.
  - assert (r = other_response) as ->.
    { pose proof (f_equal fst Hsel) as Hr.
      change (@inr exn _ other_response = inr r) in Hr. congruence. }
    exists other_response. split; [apply Hret; reflexivity|].
    apply Hlast.
    intros Hg. specialize (Hg "env" (PStr "production") eq_refl).
    vm_compute in Hg. discriminate.
Defined.

(** C2 as the specification states it fails: the conditions require the key
    [env], the empty payload lacks it, and yet [call] returns the first
    element of the pool, because the required value is [None]. *)
Lemma null_condition_counterexample :
  let conds : gmap string pyobj := {[ "env" := PNone ]} in
  let mock := conditional_mock_with conds in
  conds <> ∅ /\
  error_rate mock = 0%float /\
  ~ conditions_hold conds ∅ /\
  last (responses mock) = Some other_response /\
  fst (call env0 "cond_tool" ∅ (emulator_of mock false)) = inr prod_response /\
  fst (call env0 "cond_tool" ∅ (emulator_of mock false)) <> inr other_response.
Proof.
  cbv zeta. split; [|split; [|split; [|split; [|split]]]].
  - intros H. apply (f_equal (fun m : gmap string pyobj => m !! "env")) in H.
    vm_compute in H. discriminate.
  - reflexivity.
  - intros H. destruct (H "env" PNone eq_refl) as (v' & Hv' & _).
    rewrite lookup_empty in Hv'. discriminate.
  - reflexivity.
  - reflexivity.
  - change (fst (call env0 "cond_tool" ∅
              (emulator_of (conditional_mock_with {[ "env" := PNone ]}) false)))
      with (@inr exn _ prod_response).
    intros H.
    apply (response_neq_by_body prod_response other_response "environment").
    + vm_compute. discriminate.
    + congruence.
Qed.

(** ** Sequential mocks *)

Lemma call_sequential env input_data s mock :
  _mocks (self s) !! tool_name mock = Some mock ->
  behavior mock = MockBehavior.sequential ->
  fault_injected env mock = false ->
  responses mock <> [] ->
  exists r,
    responses mock !!
      Z.to_nat (cursor (tool_name mock) s mod Z.of_nat (length (responses mock)))
      = Some r /\
    fst (call env (tool_name mock) input_data s)
      = call_outcome env (_config (self s)) r /\
    _sequence_positions
      (self (snd (call env (tool_name mock) input_data s))) !! tool_name mock
      = Some (cursor (tool_name mock) s + 1) /\
    _mocks (self (snd (call env (tool_name mock) input_data s)))
      = _mocks (self s) /\
    _config (self (snd (call env (tool_name mock) input_data s)))
      = _config (self s).
Proof.
  intros Hm Hb Hf Hne.
  destruct (select_sequential env mock input_data s Hf Hb Hne) as (r & Hr & Hsel).
  exists r. rewrite (call_registered _ _ _ _ _ _ _ Hm Hsel). simpl.
  rewrite finish_self. simpl. rewrite lookup_insert_eq. auto.
Qed.

Lemma call_outcome_returns env config r :
  wait_raises env config r = None -> call_outcome env config r = inr r.
Proof. intros H. unfold call_outcome. rewrite H. reflexivity. Qed.

Lemma just_reset_cursor s0 name : just_reset s0 -> cursor name s0 = 0.
Proof.
  intros [(s & ->)|(config & h & ->)]; unfold cursor; simpl;
    rewrite lookup_empty; reflexivity.
Qed.

Lemma run_sequential mock cs : forall s,
  _mocks (self s) !! tool_name mock = Some mock ->
  behavior mock = MockBehavior.sequential ->
  error_rate mock = 0%float ->
  responses mock <> [] ->
  _mocks (self (snd (run_calls (calls_to (tool_name mock) cs) s)))
    !! tool_name mock = Some mock /\
  cursor (tool_name mock) (snd (run_calls (calls_to (tool_name mock) cs) s))
    = cursor (tool_name mock) s + Z.of_nat (length cs) /\
  _config (self (snd (run_calls (calls_to (tool_name mock) cs) s)))
    = _config (self s).
Proof.
  induction cs as [|[env input_data] cs IH]; intros s Hm Hb He Hne.
  - simpl. split; [exact Hm|]. split; [lia|reflexivity].
  - pose proof (fault_injected_rate_0 env mock He) as Hf.
    destruct (call_sequential env input_data s mock Hm Hb Hf Hne)
      as (r & _ & _ & Hcur & Hmocks & Hcfg).
    simpl. destruct (call env (tool_name mock) input_data s) as [out s1].
    simpl in Hcur, Hmocks, Hcfg.
    assert (_mocks (self s1) !! tool_name mock = Some mock) as Hm1
      by (rewrite Hmocks; exact Hm).
    destruct (IH s1 Hm1 Hb He Hne) as (IHm & IHc & IHcfg).
    destruct (run_calls (calls_to (tool_name mock) cs) s1) as [outs s2].
    simpl in *. split; [exact IHm|]. split; [|congruence].
    rewrite IHc. unfold cursor at 1. rewrite Hcur. simpl. lia.
Qed.

(** C3, as amended.  A sequential mock with a pool of [k >= 1] responses
    and error_rate 0, in an emulator that has just been reset or
    constructed: after [i] calls to the tool, whether they returned or
    raised, the next call selects [responses[i mod k]] without raising and
    leaves the tool's cursor at [i + 1].  It returns that response, unless
    [time.sleep] raises for the simulated latency, and then [call] raises
    that error with the cursor advanced all the same.  When [i = k] the
    call selects what the first call after the reset selects. *)
Theorem sequential_round_robin mock s0 (cs : list (Env * gmap string pyobj))
    env input_data :
  just_reset s0 ->
  _mocks (self s0) !! tool_name mock = Some mock ->
  behavior mock = MockBehavior.sequential ->
  error_rate mock = 0%float ->
  (1 <= length (responses mock))%nat ->
  let s := snd (run_calls (calls_to (tool_name mock) cs) s0) in
  let i := length cs in
  let k := length (responses mock) in
  exists r,
    responses mock !! Nat.modulo i k = Some r /\
    fst (call env (tool_name mock) input_data s)
      = call_outcome env (_config (self s0)) r /\
    (wait_raises env (_config (self s0)) r = None ->
     fst (call env (tool_name mock) input_data s) = inr r) /\
    _sequence_positions
      (self (snd (call env (tool_name mock) input_data s))) !! tool_name mock
      = Some (Z.of_nat i + 1) /\
    (i = k -> forall env' input_data',
       fst (call env' (tool_name mock) input_data' s0)
         = call_outcome env' (_config (self s0)) r).
Proof.
  intros Hj Hm Hb He Hk s i k.
  assert (responses mock <> []) as Hne.
  { destruct (responses mock); [simpl in Hk; lia|discriminate]. }
  destruct (run_sequential mock cs s0 Hm Hb He Hne) as (Hms & Hcs & Hcfg).
  fold s in Hms, Hcs, Hcfg. rewrite (just_reset_cursor s0 _ Hj) in Hcs.
  pose proof (fault_injected_rate_0 env mock He) as Hf.
  destruct (call_sequential env input_data s mock Hms Hb Hf Hne)
    as (r & Hr & Hcall & Hcur & _).
  rewrite Hcs, Z.add_0_l in Hr, Hcur. rewrite Hcfg in Hcall.
  rewrite <- Nat2Z.inj_mod, Nat2Z.id in Hr.
  exists r. split; [exact Hr|]. split; [exact Hcall|]. split.
  { intros Hw. rewrite Hcall. apply call_outcome_returns, Hw. }
  split; [exact Hcur|].
  intros Hik env' input_data'. unfold i, k in Hik.
  pose proof (fault_injected_rate_0 env' mock He) as Hf'.
  destruct (call_sequential env' input_data' s0 mock Hm Hb Hf' Hne)
    as (r' & Hr' & Hcall' & _).
  rewrite (just_reset_cursor s0 _ Hj) in Hr'.
  rewrite Z.mod_0_l in Hr' by lia. change (Z.to_nat 0) with 0%nat in Hr'.
  rewrite Hik, Nat.Div0.mod_same in Hr. congruence.
Qed.

Lemma sequential_round_robin_witness :
  exists r,
    responses sequential_mock !! 1%nat = Some r /\
    fst (call env0 "seq_tool" ∅
           (snd (run_calls
                   (calls_to "seq_tool"
                      [(env0, ∅); (env0, ∅); (env0, ∅); (env0, ∅)])
                   (emulator_of sequential_mock true)))) = inr r.
Proof.
  destruct (sequential_round_robin sequential_mock
              (emulator_of sequential_mock true)
              [(env0, ∅); (env0, ∅); (env0, ∅); (env0, ∅)] env0 ∅)
    as (r & Hr & _ & Hret & _).
  - right. exists (mkEmulatorConfig [sequential_mock] 0%float true), ∅.
    reflexivity.
  - reflexivity.
  - reflexivity.
  - reflexivity.
  - simpl. lia.
  - exists r. split; [exact Hr|]. apply Hret.
    assert (r = MockResponse_of 200 {[ "step" := PInt 2 ]}) as ->
      by (simpl in Hr; congruence).
    reflexivity.
Defined.

(** C3 as the specification states it fails: in a fresh emulator, a
    sequential mock with error_rate 0 and two responses, the first of which
    declares an infinite latency (the validator only refuses values below
    zero): the first call does not return [responses[0]], it raises the
    OverflowError of [time.sleep], nothing is recorded, and the cursor is
    at one. *)
Lemma sequential_overflow_counterexample :
  let mock :=
    mkToolMock "seq_tool" MockBehavior.sequential
      [mkMockResponse 200 ∅ PrimFloat.infinity ∅; ok_response] 0%float None in
  let s0 := emulator_of mock true in
  behavior mock = MockBehavior.sequential /\
  error_rate mock = 0%float /\
  length (responses mock) = 2%nat /\
  latency_must_be_non_negative PrimFloat.infinity = true /\
  fst (call env0 "seq_tool" ∅ s0) = inl OverflowError /\
  log (snd (call env0 "seq_tool" ∅ s0)) = [] /\
  cursor "seq_tool" (snd (call env0 "seq_tool" ∅ s0)) = 1.
Proof. cbv zeta. repeat split. Qed.

(** ** Fault injection, the error policy and the empty pool *)

(** Without fault injection, what [_select_response] returns is the
    synthetic error of the [error] policy, the default of the empty pool,
    or an element of the pool. *)
Lemma select_policy_result env mock input_data s r s' :
  fault_injected env mock = false ->
  _select_response env mock input_data s = (inr r, s') ->
  (behavior mock = MockBehavior.error /\ r = tool_error mock) \/
  (behavior mock <> MockBehavior.error /\ responses mock = [] /\
   r = MockResponse_of 200 ∅) \/
  (behavior mock <> MockBehavior.error /\ r ∈ responses mock).
Proof.
  intros Hf Hsel.
  destruct (decide (behavior mock = MockBehavior.error)) as [Hb|Hb].
  { left. rewrite (select_error env mock input_data s Hf Hb) in Hsel.
    split; [exact Hb|congruence]. }
  right. destruct (responses mock) as [|r0 rest] eqn:Hr.
  { left. rewrite (select_empty env mock input_data s Hf Hb Hr) in Hsel.
    repeat split; [exact Hb|congruence]. }
  right. split; [exact Hb|].
  assert (responses mock <> []) as Hne by (rewrite Hr; discriminate).
  rewrite <- Hr.
  destruct (behavior mock) eqn:Hbeh; try congruence.
  - rewrite (select_static env mock input_data s r0 rest Hf Hbeh Hr) in Hsel.
    injection Hsel as <- _. rewrite Hr. apply list_elem_of_here.
  - destruct (select_sequential env mock input_data s Hf Hbeh Hne)
      as (r1 & Hr1 & Hsel1).
    rewrite Hsel1 in Hsel. injection Hsel as <- _.
    eapply list_elem_of_lookup_2, Hr1.
  - destruct (select_random env mock input_data s Hf Hbeh Hne)
      as (r1 & Hr1 & Hsel1).
    rewrite Hsel1 in Hsel. injection Hsel as <- _. exact Hr1.
  - rewrite (select_conditional env mock input_data s Hf Hbeh Hne) in Hsel.
    destruct (conditions mock) as [conds|] eqn:Hc.
    + destruct (match_conditional_some mock input_data conds s Hc Hne)
        as (r1 & Hsel1 & Hr1).
      rewrite Hsel1 in Hsel. injection Hsel as <- _.
      destruct (matched conds input_data).
      * apply head_Some_elem_of, Hr1.
      * apply last_Some_elem_of, Hr1.
    + rewrite (match_conditional_none mock input_data r0 rest s Hc Hr) in Hsel.
      injection Hsel as <- _. rewrite Hr. apply list_elem_of_here.
Qed.

(** C4, as amended.  With the random draw an input below 1: a registered
    mock with error_rate 1.0 takes the fault-injection branch on every
    call, whatever its behavior and pool, and the call returns the injected
    response, of status 500; a registered mock with error_rate 0.0 never
    takes that branch, and a 500 then comes from the [error] policy or is
    the status of the pool element that was selected.  In both cases the
    call returns what was selected, unless [time.sleep] raises for the
    simulated latency, and then [call] raises that error. *)
Theorem error_rate_boundaries env name input_data s mock :
  _mocks (self s) !! name = Some mock ->
  PrimFloat.ltb (random_random env) 1 = true ->
  (error_rate mock = 1%float ->
     fault_injected env mock = true /\
     fst (call env name input_data s)
       = call_outcome env (_config (self s)) (injected_error mock) /\
     (wait_raises env (_config (self s)) (injected_error mock) = None ->
      fst (call env name input_data s) = inr (injected_error mock)) /\
     status_code (injected_error mock) = 500) /\
  (error_rate mock = 0%float ->
     fault_injected env mock = false /\
     exists r,
       fst (_select_response env mock input_data s) = inr r /\
       fst (call env name input_data s) = call_outcome env (_config (self s)) r /\
       (wait_raises env (_config (self s)) r = None ->
        fst (call env name input_data s) = inr r) /\
       (status_code r = 500 ->
        behavior mock = MockBehavior.error \/ r ∈ responses mock)).
Proof.
  intros Hm Hd. split; intros He.
  - pose proof (fault_injected_rate_1 env mock He Hd) as Hf.
    split; [exact Hf|].
    rewrite (call_registered _ _ _ _ _ _ _ Hm
               (select_fault env mock input_data s Hf)).
    simpl. split; [reflexivity|]. split; [|reflexivity].
    apply call_outcome_returns.
  - pose proof (fault_injected_rate_0 env mock He) as Hf.
    split; [exact Hf|].
    pose proof (call_spec env name input_data s) as H. rewrite Hm in H.
    destruct H as (r & Hsel & Hcall).
    exists r. rewrite Hsel, Hcall. simpl.
    split; [reflexivity|]. split; [reflexivity|].
    split; [apply call_outcome_returns|]. intros H500.
    destruct (select_policy_result _ _ _ _ _ _ Hf Hsel)
      as [[Hb _]|[(_ & _ & ->)|[_ Hin]]].
    + left. exact Hb.
    + discriminate H500.
    + right. exact Hin.
Qed.

Lemma error_rate_boundaries_witness :
  fst (call env0 "static_tool" ∅
         (emulator_of
            (mkToolMock "static_tool" MockBehavior.static [ok_response]
               1%float None) false))
  = inr (injected_error
           (mkToolMock "static_tool" MockBehavior.static [ok_response]
              1%float None)).
Proof.
  destruct (error_rate_boundaries env0 "static_tool" ∅
              (emulator_of
                 (mkToolMock "static_tool" MockBehavior.static [ok_response]
                    1%float None) false)
              (mkToolMock "static_tool" MockBehavior.static [ok_response]
                 1%float None) eq_refl eq_refl) as [Hone _].
  destruct (Hone eq_refl) as (_ & _ & Hret & _).
  apply Hret. reflexivity.
Defined.

(** C4 as the specification states it fails: with error_rate 0.0 and the
    static policy, a pool whose only element has status 500 makes [call]
    return 500, and neither fault injection nor the [error] policy is
    involved. *)
Lemma pool_status_500_counterexample :
  let mock :=
    mkToolMock "static_tool" MockBehavior.static [error_response]
      0%float None in
  error_rate mock = 0%float /\
  behavior mock <> MockBehavior.error /\
  fault_injected env0 mock = false /\
  fst (call env0 "static_tool" ∅ (emulator_of mock false))
    = inr error_response /\
  status_code error_response = 500.
Proof. cbv zeta. repeat split. discriminate. Qed.

(** C5, as amended.  [call] on a name with no registered mock raises
    ToolNotFoundError and leaves the whole state, hence the log, as it was.
    On a registered name the selection always returns a response, and
    [call] returns it unless [time.sleep] raises for the simulated latency:
    that error is then the one [call] raises, and nothing is added to the
    log either.  So [call] fails in two ways, the missing registration and
    a wait that [time.sleep] refuses. *)
Theorem call_fails_only_unregistered env name input_data s :
  match _mocks (self s) !! name with
  | None =>
      call env name input_data s = (inl (ToolNotFoundError name), s) /\
      log (snd (call env name input_data s)) = log s
  | Some mock =>
      exists r,
        fst (_select_response env mock input_data s) = inr r /\
        fst (call env name input_data s) = call_outcome env (_config (self s)) r /\
        match wait_raises env (_config (self s)) r with
        | None => fst (call env name input_data s) = inr r
        | Some e =>
            fst (call env name input_data s) = inl e /\
            log (snd (call env name input_data s)) = log s
        end
  end.
Proof.
  pose proof (call_spec env name input_data s) as H.
  destruct (_mocks (self s) !! name) as [mock|].
  - destruct H as (r & Hsel & Hcall). exists r. rewrite Hsel, Hcall. simpl.
    split; [reflexivity|]. split; [reflexivity|].
    destruct (select_state_self env mock s) as (Hc & _ & Hl & Hh & _).
    rewrite finish_log, Hc. unfold call_outcome.
    destruct (wait_raises env (_config (self s)) r); [|reflexivity].
    split; [reflexivity|].
    destruct (record_calls (_config (self s))); rewrite app_nil_r;
      unfold log, list_at; rewrite Hl, Hh; reflexivity.
  - rewrite H. split; reflexivity.
Qed.

(** C5 as the specification states it fails: the tool is registered, its
    only response declares an infinite latency, which the validator
    accepts, and [call] raises the OverflowError of [time.sleep]: a failure
    that is not ToolNotFound. *)
Lemma registered_call_raises_counterexample :
  let mock :=
    mkToolMock "static_tool" MockBehavior.static
      [mkMockResponse 200 ∅ PrimFloat.infinity ∅] 0%float None in
  _mocks (self (emulator_of mock true)) !! "static_tool" = Some mock /\
  MockResponse_valid (mkMockResponse 200 ∅ PrimFloat.infinity ∅) = true /\
  fst (call env0 "static_tool" ∅ (emulator_of mock true)) = inl OverflowError /\
  (forall name, inl OverflowError <> @inl exn MockResponse (ToolNotFoundError name)).
Proof. cbv zeta. repeat split. intros name H. discriminate H. Qed.

(** C6.  The steps of the selection engine come in a strict order.  A call
    that takes the fault-injection branch returns the injected error, also
    for the [error] policy and for an empty pool.  With error_rate 0, the
    [error] policy returns its synthetic 500 response even when the pool is
    empty, and any other policy with an empty pool returns the default
    response: status 200, empty body. *)
Theorem selection_order env mock input_data s :
  (fault_injected env mock = true ->
     _select_response env mock input_data s = (inr (injected_error mock), s)) /\
  (error_rate mock = 0%float ->
     behavior mock = MockBehavior.error ->
     _select_response env mock input_data s = (inr (tool_error mock), s) /\
     status_code (tool_error mock) = 500) /\
  (error_rate mock = 0%float ->
     behavior mock <> MockBehavior.error ->
     responses mock = [] ->
     _select_response env mock input_data s = (inr (MockResponse_of 200 ∅), s) /\
     status_code (MockResponse_of 200 ∅) = 200 /\
     body (MockResponse_of 200 ∅) = ∅).
Proof.
  split; [|split].
  - apply select_fault.
  - intros He Hb. split; [|reflexivity].
    apply select_error; [apply fault_injected_rate_0, He|exact Hb].
  - intros He Hb Hr. split; [|split; reflexivity].
    apply select_empty; [apply fault_injected_rate_0, He|exact Hb|exact Hr].
Qed.

Lemma selection_order_witness :
  let empty_error := mkToolMock "error_tool" MockBehavior.error [] 0%float None in
  let empty_static := mkToolMock "t" MockBehavior.static [] 0%float None in
  let always := mkToolMock "error_tool" MockBehavior.error [] 1%float None in
  let s := emulator_of error_mock true in
  _select_response env0 always ∅ s = (inr (injected_error always), s) /\
  _select_response env0 empty_error ∅ s = (inr (tool_error empty_error), s) /\
  _select_response env0 empty_static ∅ s = (inr (MockResponse_of 200 ∅), s).
Proof.
  cbv zeta. split; [|split].
  - apply (selection_order env0
             (mkToolMock "error_tool" MockBehavior.error [] 1%float None)).
    reflexivity.
  - apply (selection_order env0
             (mkToolMock "error_tool" MockBehavior.error [] 0%float None));
      reflexivity.
  - apply (selection_order env0
             (mkToolMock "t" MockBehavior.static [] 0%float None));
      [reflexivity|discriminate|reflexivity].
Defined.

(** ** The call recorder *)

Lemma select_state_log env mock s : log (select_state env mock s) = log s.
Proof.
  destruct (select_state_self env mock s) as (_ & _ & Hl & Hh & _).
  unfold log, list_at. rewrite Hl, Hh. reflexivity.
Qed.

(** What one call keeps and what it adds to the log. *)
Lemma call_frame env name input_data s :
  _config (self (snd (call env name input_data s))) = _config (self s) /\
  _mocks (self (snd (call env name input_data s))) = _mocks (self s) /\
  _recorded_calls (self (snd (call env name input_data s)))
    = _recorded_calls (self s) /\
  log (snd (call env name input_data s)) =
    (log s ++
     if record_calls (_config (self s)) then
       match fst (call env name input_data s) with
       | inr r => [mkRecordedCall name input_data r (now env)]
       | inl _ => []
       end
     else [])%list.
Proof.
  pose proof (call_spec env name input_data s) as H.
  destruct (_mocks (self s) !! name) as [mock|].
  - destruct H as (r & _ & ->). simpl.
    destruct (select_state_self env mock s) as (Hc & Hm & Hl & _).
    rewrite finish_self, finish_log, select_state_log, Hc.
    split; [reflexivity|]. split; [exact Hm|]. split; [exact Hl|].
    unfold call_outcome.
    destruct (wait_raises env (_config (self s)) r); reflexivity.
  - rewrite H. simpl.
    destruct (record_calls (_config (self s))); rewrite app_nil_r; auto.
Qed.

Lemma call_dom env name input_data s :
  log_allocated s ->
  dom (heap (snd (call env name input_data s))) = dom (heap s).
Proof.
  intros Hin. pose proof (call_spec env name input_data s) as H.
  destruct (_mocks (self s) !! name) as [mock|].
  - destruct H as (r & _ & ->). simpl.
    destruct (select_state_self env mock s) as (_ & _ & Hl & Hh & _).
    rewrite finish_dom; [rewrite Hh; reflexivity|].
    unfold log_allocated. rewrite Hl, Hh. exact Hin.
  - rewrite H. reflexivity.
Qed.

Lemma run_calls_log cs : forall s,
  length (fst (run_calls cs s)) = length cs /\
  _config (self (snd (run_calls cs s))) = _config (self s) /\
  _recorded_calls (self (snd (run_calls cs s))) = _recorded_calls (self s) /\
  log (snd (run_calls cs s)) =
    (log s ++
     if record_calls (_config (self s))
     then records_of cs (fst (run_calls cs s)) else [])%list.
Proof.
  induction cs as [|[[env name] input_data] cs IH]; intros s.
  - simpl.
    destruct (record_calls (_config (self s))); rewrite app_nil_r; auto.
  - simpl. destruct (call_frame env name input_data s) as (Hc & _ & Hl & Hlog).
    destruct (call env name input_data s) as [out s1]. simpl in Hc, Hl, Hlog.
    destruct (IH s1) as (IHn & IHc & IHl & IHlog).
    destruct (run_calls cs s1) as [outs s2]. simpl in *.
    rewrite IHn, IHc, IHl, IHlog, Hc, Hlog, Hl.
    repeat split; try reflexivity.
    destruct (record_calls (_config (self s))).
    + rewrite <- app_assoc. destruct out; reflexivity.
    + rewrite !app_nil_r. reflexivity.
Qed.

Lemma fresh_loc_not_log s :
  log_allocated s -> fresh (dom (heap s)) <> _recorded_calls (self s).
Proof.
  intros Hin Heq. apply (is_fresh (dom (heap s))).
  rewrite Heq. apply elem_of_dom, Hin.
Qed.

Lemma init_log_allocated config h : log_allocated (__init__ config h).
Proof. unfold log_allocated. simpl. rewrite lookup_insert_eq. eauto. Qed.

Lemma call_log_allocated env name input_data s :
  log_allocated s -> log_allocated (snd (call env name input_data s)).
Proof.
  intros Hs. unfold log_allocated.
  destruct (call_frame env name input_data s) as (_ & _ & -> & _).
  apply elem_of_dom. rewrite (call_dom _ _ _ _ Hs). apply elem_of_dom, Hs.
Qed.

Lemma mutate_log_allocated l f s :
  log_allocated s -> log_allocated (list_mutate l f s).
Proof.
  intros Hs. unfold log_allocated, list_mutate. simpl.
  destruct (decide (l = _recorded_calls (self s))) as [->|Hne].
  - rewrite lookup_insert_eq. eauto.
  - rewrite lookup_insert_ne by exact Hne. exact Hs.
Qed.

Lemma get_recorded_calls_log_allocated s :
  log_allocated s -> log_allocated (snd (get_recorded_calls s)).
Proof.
  intros Hs. unfold log_allocated, get_recorded_calls. simpl.
  rewrite lookup_insert_ne by (apply fresh_loc_not_log, Hs). exact Hs.
Qed.

(** C7.  Over every run of calls: when [record_calls] is false the log is
    left as it was; when it is true the log grows by exactly one record per
    call that returned, in call order, each with that call's tool name,
    payload and response.  [get_recorded_calls] returns a new list object
    holding the log: after any mutation of that object, the log is unchanged
    and a second [get_recorded_calls] still returns the log. *)
Theorem recording_gate cs s :
  length (fst (run_calls cs s)) = length cs /\
  log (snd (run_calls cs s)) =
    (log s ++
     if record_calls (_config (self s))
     then records_of cs (fst (run_calls cs s)) else [])%list /\
  (log_allocated s ->
   exists l,
     fst (get_recorded_calls s) = inr l /\
     l <> _recorded_calls (self s) /\
     list_at l (snd (get_recorded_calls s)) = log s /\
     log (snd (get_recorded_calls s)) = log s /\
     forall f,
       let s2 := list_mutate l f (snd (get_recorded_calls s)) in
       log s2 = log s /\
       exists l2,
         fst (get_recorded_calls s2) = inr l2 /\
         list_at l2 (snd (get_recorded_calls s2)) = log s).
Proof.
  destruct (run_calls_log cs s) as (Hn & _ & _ & Hlog).
  split; [exact Hn|]. split; [exact Hlog|].
  intros Hin. pose proof (fresh_loc_not_log s Hin) as Hfresh.
  exists (fresh (dom (heap s))). split; [reflexivity|].
  split; [exact Hfresh|].
  assert (log (snd (get_recorded_calls s)) = log s) as Hsame.
  { unfold log, list_at, get_recorded_calls. simpl.
    rewrite lookup_insert_ne by exact Hfresh. reflexivity. }
  split; [|split; [exact Hsame|]].
  { unfold list_at at 1, get_recorded_calls. simpl.
    rewrite lookup_insert_eq. reflexivity. }
  intros f s2.
  assert (log s2 = log s) as Hlog2.
  { unfold s2, log. simpl self.
    rewrite list_at_mutate_ne by exact Hfresh. exact Hsame. }
  split; [exact Hlog2|].
  exists (fresh (dom (heap s2))). split; [reflexivity|].
  unfold list_at at 1, get_recorded_calls. simpl.
  rewrite lookup_insert_eq. exact Hlog2.
Qed.

Lemma recording_gate_witness :
  let s := emulator_of static_mock true in
  log (snd (run_calls [(env0, "static_tool", ∅); (env0, "ghost", ∅)] s)) =
    [mkRecordedCall "static_tool" ∅ ok_response 0] /\
  exists l,
    fst (get_recorded_calls s) = inr l /\
    log (list_mutate l (fun _ => [mkRecordedCall "x" ∅ ok_response 7])
           (snd (get_recorded_calls s))) = log s.
Proof.
  cbv zeta.
  destruct (recording_gate [(env0, "static_tool", ∅); (env0, "ghost", ∅)]
              (emulator_of static_mock true)) as (_ & Hlog & Hcopy).
  split.
  - rewrite Hlog. reflexivity.
  - destruct Hcopy as (l & Hl & _ & _ & _ & Hmut).
    + apply init_log_allocated.
    + exists l. split; [exact Hl|].
      apply (Hmut (fun _ => [mkRecordedCall "x" ∅ ok_response 7])).
Defined.

(** ** The response depends on the state through the cursor only *)

Lemma py_getitem_fst {A} (l : list A) (i : Z) (s1 s2 : State) :
  fst (py_getitem l i s1) = fst (py_getitem l i s2).
Proof.
  unfold py_getitem. cbv zeta.
  destruct (_ || _); [reflexivity|]. destruct (l !! _); reflexivity.
Qed.

Lemma match_conditional_fst mock input_data (s1 s2 : State) :
  fst (_match_conditional mock input_data s1) =
  fst (_match_conditional mock input_data s2).
Proof.
  unfold _match_conditional.
  destruct (conditions mock) as [conds|];
    destruct (length (responses mock) =? 0)%nat; try reflexivity.
  - destruct (match_loop conds input_data (responses mock));
      [reflexivity|apply py_getitem_fst].
  - apply py_getitem_fst.
Qed.

Lemma select_fst_ext env mock input_data (s1 s2 : State) :
  cursor (tool_name mock) s1 = cursor (tool_name mock) s2 ->
  fst (_select_response env mock input_data s1) =
  fst (_select_response env mock input_data s2).
Proof.
  intros Hcur.
  destruct (fault_injected env mock) eqn:Hf.
  { rewrite !select_fault by exact Hf. reflexivity. }
  destruct (decide (behavior mock = MockBehavior.sequential)) as [Hs|Hs].
  - destruct (responses mock) as [|r0 rest] eqn:Hr.
    + rewrite !select_empty by (assumption || congruence). reflexivity.
    + assert (responses mock <> []) as Hne by (rewrite Hr; discriminate).
      destruct (select_sequential env mock input_data s1 Hf Hs Hne)
        as (r1 & Hr1 & ->).
      destruct (select_sequential env mock input_data s2 Hf Hs Hne)
        as (r2 & Hr2 & ->).
      rewrite Hcur in Hr1. simpl. congruence.
  - unfold _select_response. rewrite Hf.
    destruct (decide (behavior mock = MockBehavior.error)); [reflexivity|].
    destruct (length (responses mock) =? 0)%nat eqn:Hlen; [reflexivity|].
    destruct (decide (behavior mock = MockBehavior.static));
      [apply py_getitem_fst|].
    destruct (decide (behavior mock = MockBehavior.sequential)); [congruence|].
    destruct (decide (behavior mock = MockBehavior.random)).
    { unfold random_choice. rewrite Hlen. apply py_getitem_fst. }
    destruct (decide (behavior mock = MockBehavior.conditional));
      [apply match_conditional_fst|apply py_getitem_fst].
Qed.

Lemma call_outcome_ext env config1 config2 r :
  default_latency_ms config1 = default_latency_ms config2 ->
  call_outcome env config1 r = call_outcome env config2 r.
Proof. intros H. unfold call_outcome, wait_raises. rewrite H. reflexivity. Qed.

Lemma call_fst_ext env name input_data (s1 s2 : State) :
  _mocks (self s1) !! name = _mocks (self s2) !! name ->
  default_latency_ms (_config (self s1)) = default_latency_ms (_config (self s2)) ->
  (forall mock, _mocks (self s1) !! name = Some mock ->
     cursor (tool_name mock) s1 = cursor (tool_name mock) s2) ->
  fst (call env name input_data s1) = fst (call env name input_data s2).
Proof.
  intros Hm Hlat Hcur.
  pose proof (call_spec env name input_data s1) as H1.
  pose proof (call_spec env name input_data s2) as H2.
  rewrite <- Hm in H2.
  destruct (_mocks (self s1) !! name) as [mock|].
  - destruct H1 as (r1 & Hsel1 & ->). destruct H2 as (r2 & Hsel2 & ->).
    pose proof (select_fst_ext env mock input_data s1 s2 (Hcur mock eq_refl))
      as Hfst.
    rewrite Hsel1, Hsel2 in Hfst. simpl in *. injection Hfst as ->.
    apply call_outcome_ext, Hlat.
  - rewrite H1, H2. reflexivity.
Qed.

Lemma call_sequential_first env input_data s mock r rest :
  cursor (tool_name mock) s = 0 ->
  _mocks (self s) !! tool_name mock = Some mock ->
  behavior mock = MockBehavior.sequential ->
  fault_injected env mock = false ->
  responses mock = r :: rest ->
  fst (call env (tool_name mock) input_data s)
    = call_outcome env (_config (self s)) r.
Proof.
  intros Hcur Hm Hb Hf Hr.
  assert (responses mock <> []) as Hne by (rewrite Hr; discriminate).
  destruct (call_sequential env input_data s mock Hm Hb Hf Hne)
    as (r' & Hr' & -> & _).
  rewrite Hcur, Hr in Hr'. rewrite Z.mod_0_l in Hr' by (simpl; lia).
  simpl in Hr'. congruence.
Qed.

(** ** reset *)

Lemma reset_state s :
  reset s =
  (inr tt,
   set_sequence_positions (fun _ => ∅)
     (list_mutate (_recorded_calls (self s)) (fun _ => []) s)).
Proof. reflexivity. Qed.

(** C8, as amended.  [reset] returns normally, leaves the log empty and
    the cursor map empty, and does not touch the registry or the
    configuration.  The next call then ends as it does on a freshly
    constructed emulator with the same registry entry and the same default
    latency; when it is served by the sequential policy (no fault injected,
    non-empty pool) it selects [responses[0]], as on a fresh emulator, and
    returns it unless [time.sleep] raises for the simulated latency, and
    then [call] raises that error. *)
Theorem reset_semantics s :
  fst (reset s) = inr tt /\
  log (snd (reset s)) = [] /\
  _sequence_positions (self (snd (reset s))) = ∅ /\
  _mocks (self (snd (reset s))) = _mocks (self s) /\
  _config (self (snd (reset s))) = _config (self s) /\
  (forall env name input_data config h,
     _mocks (self (__init__ config h)) !! name = _mocks (self s) !! name ->
     default_latency_ms config = default_latency_ms (_config (self s)) ->
     fst (call env name input_data (snd (reset s))) =
     fst (call env name input_data (__init__ config h))) /\
  (forall env mock input_data r rest,
     _mocks (self s) !! tool_name mock = Some mock ->
     behavior mock = MockBehavior.sequential ->
     fault_injected env mock = false ->
     responses mock = r :: rest ->
     fst (call env (tool_name mock) input_data (snd (reset s)))
       = call_outcome env (_config (self s)) r /\
     (wait_raises env (_config (self s)) r = None ->
      fst (call env (tool_name mock) input_data (snd (reset s))) = inr r) /\
     forall config h,
       _mocks (self (__init__ config h)) !! tool_name mock = Some mock ->
       fst (call env (tool_name mock) input_data (__init__ config h))
         = call_outcome env config r).
Proof.
  rewrite reset_state. simpl fst. simpl snd.
  split; [reflexivity|]. split.
  { unfold log. simpl self. apply list_at_mutate. }
  split; [reflexivity|]. split; [reflexivity|]. split; [reflexivity|].
  assert (just_reset
            (set_sequence_positions (fun _ => ∅)
               (list_mutate (_recorded_calls (self s)) (fun _ => []) s)))
    as Hj by (left; exists s; reflexivity).
  split.
  - intros env name input_data config h Hm Hlat. apply call_fst_ext.
    + simpl. symmetry. exact Hm.
    + simpl. symmetry. exact Hlat.
    + intros mock _. rewrite (just_reset_cursor _ _ Hj).
      symmetry. apply just_reset_cursor. right. eauto.
  - intros env mock input_data r rest Hm Hb Hf Hr.
    assert (fst (call env (tool_name mock) input_data
                   (set_sequence_positions (fun _ => ∅)
                      (list_mutate (_recorded_calls (self s)) (fun _ => []) s)))
            = call_outcome env (_config (self s)) r) as Hcall.
    { exact (call_sequential_first env input_data
               (set_sequence_positions (fun _ => ∅)
                  (list_mutate (_recorded_calls (self s)) (fun _ => []) s))
               mock r rest (just_reset_cursor _ _ Hj) Hm Hb Hf Hr). }
    split; [exact Hcall|]. split.
    + intros Hw. rewrite Hcall. apply call_outcome_returns, Hw.
    + intros config h Hm'.
      apply (call_sequential_first env input_data (__init__ config h)
               mock r rest); try assumption.
      apply just_reset_cursor. right. eauto.
Qed.

Lemma reset_semantics_witness :
  let s :=
    snd (run_calls [(env0, "seq_tool", ∅); (env0, "seq_tool", ∅)]
           (emulator_of sequential_mock true)) in
  log s <> [] /\
  cursor "seq_tool" s = 2 /\
  fst (call env0 "seq_tool" ∅ (snd (reset s))) =
    inr (MockResponse_of 200 {[ "step" := PInt 1 ]}).
Proof.
  cbv zeta. split; [|split].
  - vm_compute. discriminate.
  - reflexivity.
  - destruct (reset_semantics
                (snd (run_calls [(env0, "seq_tool", ∅); (env0, "seq_tool", ∅)]
                        (emulator_of sequential_mock true))))
      as (_ & _ & _ & _ & _ & _ & Hseq).
    destruct (Hseq env0 sequential_mock ∅
                (MockResponse_of 200 {[ "step" := PInt 1 ]})
                [MockResponse_of 200 {[ "step" := PInt 2 ]};
                 MockResponse_of 201 {[ "step" := PInt 3 ]}]
                eq_refl eq_refl eq_refl eq_refl) as (_ & Hret & _).
    apply Hret. reflexivity.
Defined.

(** C8 as the specification states it fails: after a reset, the next call
    to a sequential mock whose first response declares an infinite latency
    does not return [responses[0]]: it raises the OverflowError of
    [time.sleep], as it does on a freshly constructed emulator. *)
Lemma reset_overflow_counterexample :
  let mock :=
    mkToolMock "seq_tool" MockBehavior.sequential
      [mkMockResponse 200 ∅ PrimFloat.infinity ∅; ok_response] 0%float None in
  let s := snd (reset (snd (call env0 "seq_tool" ∅ (emulator_of mock true)))) in
  _mocks (self s) !! "seq_tool" = Some mock /\
  _sequence_positions (self s) = ∅ /\
  fst (call env0 "seq_tool" ∅ s) = inl OverflowError /\
  fst (call env0 "seq_tool" ∅ (emulator_of mock true)) = inl OverflowError.
Proof. cbv zeta. repeat split. Qed.

(** ** The registry *)

Lemma init_registry (ms : list ToolMock) (name : string) :
  foldl (fun d m => <[tool_name m := m]> d) (∅ : gmap string ToolMock) ms
    !! name
  = last (filter (fun m => tool_name m = name) ms).
Proof.
  induction ms as [|m ms IH] using rev_ind.
  - simpl. apply lookup_empty.
  - rewrite foldl_app, filter_app. simpl.
    destruct (decide (tool_name m = name)) as [Heq|Hne].
    + rewrite filter_cons_True, filter_nil by exact Heq.
      rewrite last_snoc, Heq. apply lookup_insert_eq.
    + rewrite filter_cons_False, filter_nil, app_nil_r by exact Hne.
      rewrite lookup_insert_ne by exact Hne. exact IH.
Qed.

Lemma init_registry_ok config h : registry_ok (__init__ config h).
Proof.
  intros name mock Hm. simpl in Hm. rewrite init_registry in Hm.
  apply last_Some_elem_of, list_elem_of_filter in Hm. apply Hm.
Qed.

Lemma add_mock_registry_ok mock s :
  registry_ok s -> registry_ok (snd (add_mock mock s)).
Proof.
  intros Hok name m. simpl.
  destruct (decide (tool_name mock = name)) as [<-|Hne].
  - rewrite lookup_insert_eq. congruence.
  - rewrite lookup_insert_ne by exact Hne. apply Hok.
Qed.

Lemma call_registry_ok env name input_data s :
  registry_ok s -> registry_ok (snd (call env name input_data s)).
Proof.
  intros Hok n m.
  destruct (call_frame env name input_data s) as (_ & -> & _). apply Hok.
Qed.

Lemma reset_registry_ok s : registry_ok s -> registry_ok (snd (reset s)).
Proof. intros Hok n m. apply Hok. Qed.

(** ** Invariants of the reachable states *)

Lemma reachable_invariant s : reachable s -> registry_ok s /\ log_allocated s.
Proof.
  induction 1 as [config h|env name input_data s _ [IHr IHl]|s _ [IHr IHl]
                 |s _ [IHr IHl]|mock s _ [IHr IHl]|l f s _ [IHr IHl] _].
  - split; [apply init_registry_ok|apply init_log_allocated].
  - split; [apply call_registry_ok, IHr|apply call_log_allocated, IHl].
  - split; [exact IHr|apply get_recorded_calls_log_allocated, IHl].
  - split; [apply reset_registry_ok, IHr|].
    rewrite reset_state. simpl. apply (mutate_log_allocated _ _ s), IHl.
  - split; [apply add_mock_registry_ok, IHr|exact IHl].
  - split; [exact IHr|apply mutate_log_allocated, IHl].
Qed.

(** C9.  [add_mock] returns normally and stores the mock under its own
    name, replacing what was there; every other name keeps its entry; the
    cursor map, the log and every list object, the configuration and the
    sleep trace are left as they were; the very next call for that name is
    answered from the new mock: it ends as a call does whose selection is
    what the selection engine gives for the new mock.  At construction,
    the registry holds for each name the last mock of the configuration
    that bears it. *)
Theorem add_mock_frame mock s :
  fst (add_mock mock s) = inr tt /\
  _mocks (self (snd (add_mock mock s))) !! tool_name mock = Some mock /\
  (forall name, name <> tool_name mock ->
     _mocks (self (snd (add_mock mock s))) !! name = _mocks (self s) !! name) /\
  _sequence_positions (self (snd (add_mock mock s)))
    = _sequence_positions (self s) /\
  heap (snd (add_mock mock s)) = heap s /\
  log (snd (add_mock mock s)) = log s /\
  _config (self (snd (add_mock mock s))) = _config (self s) /\
  slept (snd (add_mock mock s)) = slept s /\
  (forall env input_data,
     exists r,
       fst (_select_response env mock input_data s) = inr r /\
       fst (call env (tool_name mock) input_data (snd (add_mock mock s))) =
       call_outcome env (_config (self s)) r) /\
  (forall config h name,
     _mocks (self (__init__ config h)) !! name =
     last (filter (fun m => tool_name m = name) (mocks config))).
Proof.
  split; [reflexivity|]. split; [apply lookup_insert_eq|].
  split.
  { intros name Hne. simpl. apply lookup_insert_ne. congruence. }
  split; [reflexivity|]. split; [reflexivity|]. split; [reflexivity|].
  split; [reflexivity|]. split; [reflexivity|]. split.
  - intros env input_data.
    pose proof (call_spec env (tool_name mock) input_data
                  (snd (add_mock mock s))) as H.
    simpl _mocks in H. rewrite lookup_insert_eq in H.
    destruct H as (r & Hsel & ->). exists r.
    pose proof (select_fst_ext env mock input_data
                  (snd (add_mock mock s)) s eq_refl) as Hfst.
    rewrite Hsel in Hfst. split; [symmetry; exact Hfst|reflexivity].
  - intros config h name. apply init_registry.
Qed.

Lemma add_mock_frame_witness :
  let replacement :=
    mkToolMock "static_tool" MockBehavior.static
      [MockResponse_of 418 {[ "replaced" := PBool true ]}] 0%float None in
  let s := emulator_of static_mock true in
  fst (call env0 "static_tool" ∅ s) = inr ok_response /\
  _mocks (self (snd (add_mock replacement s))) !! "seq_tool"
    = _mocks (self s) !! "seq_tool" /\
  fst (call env0 "static_tool" ∅ (snd (add_mock replacement s)))
    = inr (MockResponse_of 418 {[ "replaced" := PBool true ]}).
Proof.
  cbv zeta. split; [reflexivity|]. split.
  - apply (add_mock_frame
             (mkToolMock "static_tool" MockBehavior.static
                [MockResponse_of 418 {[ "replaced" := PBool true ]}]
                0%float None)
             (emulator_of static_mock true)).
    discriminate.
  - reflexivity.
Defined.

(** C10.  A call that takes the fault-injection branch, or that is served
    by the [error] policy, leaves the cursor map as it was, so that any
    later call returns what it would have returned had that call not
    happened.  In an emulator whose mocks are stored under their own names,
    a call to one tool never changes the cursor of another. *)
Theorem injected_call_keeps_cursor env name input_data s :
  (forall mock,
     _mocks (self s) !! name = Some mock ->
     fault_injected env mock = true \/ behavior mock = MockBehavior.error ->
     _sequence_positions (self (snd (call env name input_data s)))
       = _sequence_positions (self s) /\
     forall env2 name2 input_data2,
       fst (call env2 name2 input_data2 (snd (call env name input_data s))) =
       fst (call env2 name2 input_data2 s)) /\
  (registry_ok s ->
   forall other, other <> name ->
     _sequence_positions (self (snd (call env name input_data s))) !! other
       = _sequence_positions (self s) !! other).
Proof.
  split.
  - intros mock Hm Hcase.
    assert (advances env mock = false) as Hadv.
    { unfold advances. destruct Hcase as [Hf|Hb].
      - rewrite Hf. reflexivity.
      - rewrite (bool_decide_eq_true_2 _ Hb).
        destruct (fault_injected env mock); reflexivity. }
    destruct (call_frame env name input_data s) as (Hcfg & Hmocks & _).
    pose proof (call_spec env name input_data s) as H. rewrite Hm in H.
    destruct H as (r & _ & Hcall).
    unfold select_state in Hcall. rewrite Hadv in Hcall.
    assert (_sequence_positions (self (snd (call env name input_data s)))
            = _sequence_positions (self s)) as Hpos.
    { rewrite Hcall. simpl. rewrite finish_self. reflexivity. }
    split; [exact Hpos|].
    intros env2 name2 input_data2. apply call_fst_ext.
    + rewrite Hmocks. reflexivity.
    + rewrite Hcfg. reflexivity.
    + intros m _. unfold cursor. rewrite Hpos. reflexivity.
  - intros Hok other Hne.
    pose proof (call_spec env name input_data s) as H.
    destruct (_mocks (self s) !! name) as [mock|] eqn:Hm.
    + destruct H as (r & _ & ->). simpl. rewrite finish_self.
      rewrite select_state_cursor, (Hok name mock Hm).
      rewrite (bool_decide_eq_false_2 _ Hne), andb_false_r. reflexivity.
    + rewrite H. reflexivity.
Qed.

Lemma injected_call_keeps_cursor_witness :
  let flaky :=
    mkToolMock "seq_tool" MockBehavior.sequential (responses sequential_mock)
      0.75%float None in
  let s :=
    snd (call (mkEnv 0.875%float 0 0) "seq_tool" ∅ (emulator_of flaky true)) in
  cursor "seq_tool" s = 1 /\
  _sequence_positions (self (snd (call env0 "seq_tool" ∅ s)))
    = _sequence_positions (self s) /\
  _sequence_positions (self (snd (call env0 "seq_tool" ∅ s))) !! "other_tool"
    = _sequence_positions (self s) !! "other_tool".
Proof.
  cbv zeta.
  destruct (injected_call_keeps_cursor env0 "seq_tool" ∅
              (snd (call (mkEnv 0.875%float 0 0) "seq_tool" ∅
                      (emulator_of
                         (mkToolMock "seq_tool" MockBehavior.sequential
                            (responses sequential_mock) 0.75%float None)
                         true))))
    as [Hinjected Hother].
  split; [reflexivity|]. split.
  - apply (Hinjected
             (mkToolMock "seq_tool" MockBehavior.sequential
                (responses sequential_mock) 0.75%float None)).
    + reflexivity.
    + left. reflexivity.
  - apply Hother.
    + apply call_registry_ok, init_registry_ok.
    + discriminate.
Defined.

(** ** Policies that keep no state *)

Lemma advances_non_sequential env mock :
  behavior mock <> MockBehavior.sequential -> advances env mock = false.
Proof.
  intros Hb. unfold advances.
  rewrite (bool_decide_eq_false_2 _ Hb). apply andb_false_r.
Qed.

Lemma advances_sequential env mock :
  behavior mock = MockBehavior.sequential ->
  responses mock <> [] ->
  advances env mock = negb (fault_injected env mock).
Proof.
  intros Hb Hne. unfold advances.
  rewrite (bool_decide_eq_true_2 _ Hb), (length_eqb_0_false _ Hne).
  rewrite bool_decide_eq_false_2 by (rewrite Hb; discriminate).
  simpl. rewrite !andb_true_r. reflexivity.
Qed.

Lemma call_positions env name input_data s mock :
  _mocks (self s) !! name = Some mock ->
  _sequence_positions (self (snd (call env name input_data s))) =
  _sequence_positions (self (select_state env mock s)).
Proof.
  intros Hm. pose proof (call_spec env name input_data s) as H.
  rewrite Hm in H. destruct H as (r & _ & ->). simpl.
  rewrite finish_self. reflexivity.
Qed.

(** X1.  The cursor map is written by the sequential policy alone.  A call
    to a mock of any other policy leaves every cursor as it was; a call
    that the sequential policy serves (no fault injected, pool not empty)
    adds one to the cursor of its own tool and changes nothing else. *)
Theorem cursor_written_by_sequential_only env name input_data s mock :
  _mocks (self s) !! name = Some mock ->
  (behavior mock <> MockBehavior.sequential ->
   _sequence_positions (self (snd (call env name input_data s)))
     = _sequence_positions (self s)) /\
  (behavior mock = MockBehavior.sequential ->
   fault_injected env mock = false ->
   responses mock <> [] ->
   _sequence_positions (self (snd (call env name input_data s)))
     = <[tool_name mock := cursor (tool_name mock) s + 1]>
         (_sequence_positions (self s))).
Proof.
  intros Hm. rewrite (call_positions _ _ _ _ _ Hm). unfold select_state. split.
  - intros Hb. rewrite (advances_non_sequential _ _ Hb). reflexivity.
  - intros Hb Hf Hne. rewrite (advances_sequential _ _ Hb Hne), Hf. reflexivity.
Qed.

Lemma cursor_written_by_sequential_only_witness :
  _sequence_positions
    (self (snd (call env0 "static_tool" ∅ (__init__ multi_mock_config ∅))))
    = ∅ /\
  _sequence_positions
    (self (snd (call env0 "seq_tool" ∅ (__init__ multi_mock_config ∅))))
    = {[ "seq_tool" := 1 ]}.
Proof.
  split.
  - apply (cursor_written_by_sequential_only env0 "static_tool" ∅
             (__init__ multi_mock_config ∅) static_mock);
      [reflexivity|discriminate].
  - apply (cursor_written_by_sequential_only env0 "seq_tool" ∅
             (__init__ multi_mock_config ∅) sequential_mock);
      [reflexivity|reflexivity|reflexivity|discriminate].
Defined.

Lemma call_static env name input_data s mock r rest :
  _mocks (self s) !! name = Some mock ->
  behavior mock = MockBehavior.static ->
  fault_injected env mock = false ->
  responses mock = r :: rest ->
  call env name input_data s =
  (call_outcome env (_config (self s)) r, finish env name input_data r s).
Proof.
  intros Hm Hb Hf Hr. eapply call_registered; [exact Hm|].
  eapply select_static; eassumption.
Qed.

(** X2.  A static mock with a non-empty pool and error_rate 0 selects the
    first element of its pool for every call of a run, whatever the
    payloads: each call returns it, or raises what [time.sleep] raises for
    the simulated latency; and the run leaves the cursor map as it was. *)
Theorem static_always_first name mock r rest
    (cs : list (Env * gmap string pyobj)) : forall s,
  _mocks (self s) !! name = Some mock ->
  behavior mock = MockBehavior.static ->
  error_rate mock = 0%float ->
  responses mock = r :: rest ->
  fst (run_calls (calls_to name cs) s)
    = map (fun c => call_outcome (fst c) (_config (self s)) r) cs /\
  _sequence_positions (self (snd (run_calls (calls_to name cs) s)))
    = _sequence_positions (self s).
Proof.
  induction cs as [|[env input_data] cs IH]; intros s Hm Hb He Hr.
  - split; reflexivity.
  - simpl.
    rewrite (call_static env name input_data s mock r rest Hm Hb
               (fault_injected_rate_0 env mock He) Hr).
    assert (_mocks (self (finish env name input_data r s)) !! name = Some mock)
      as Hm' by (rewrite finish_self; exact Hm).
    destruct (IH _ Hm' Hb He Hr) as [IHo IHp].
    destruct (run_calls (calls_to name cs) (finish env name input_data r s))
      as [outs s2].
    simpl in *. rewrite IHo, IHp, finish_self. split; reflexivity.
Qed.

Lemma static_always_first_witness :
  fst (run_calls
         (calls_to "static_tool"
            [(env0, ∅); (env0, {[ "q" := PInt 1 ]}); (env0, {[ "q" := PNone ]})])
         (emulator_of static_mock true))
  = [inr ok_response; inr ok_response; inr ok_response].
Proof.
  apply (static_always_first "static_tool" static_mock ok_response []
           [(env0, ∅); (env0, {[ "q" := PInt 1 ]}); (env0, {[ "q" := PNone ]})]
           (emulator_of static_mock true));
    reflexivity.
Defined.

(** X3.  A random mock with a non-empty pool, when no fault is injected,
    selects an element of its pool without raising and leaves the cursor
    map as it was; the call returns that element, or raises what
    [time.sleep] raises for the simulated latency. *)
Theorem random_returns_pool_member env name input_data s mock :
  _mocks (self s) !! name = Some mock ->
  behavior mock = MockBehavior.random ->
  fault_injected env mock = false ->
  responses mock <> [] ->
  exists r,
    r ∈ responses mock /\
    _select_response env mock input_data s = (inr r, s) /\
    fst (call env name input_data s) = call_outcome env (_config (self s)) r /\
    _sequence_positions (self (snd (call env name input_data s)))
      = _sequence_positions (self s).
Proof.
  intros Hm Hb Hf Hne.
  destruct (select_random env mock input_data s Hf Hb Hne) as (r & Hin & Hsel).
  exists r. split; [exact Hin|]. split; [exact Hsel|].
  rewrite (call_registered _ _ _ _ _ _ _ Hm Hsel). simpl.
  rewrite finish_self. split; reflexivity.
Qed.

Lemma random_returns_pool_member_witness :
  exists r,
    r ∈ responses random_mock /\
    fst (call (mkEnv 0.5%float 7 0) "rand_tool" ∅
           (emulator_of random_mock false))
    = call_outcome (mkEnv 0.5%float 7 0)
        (_config (self (emulator_of random_mock false))) r.
Proof.
  destruct (random_returns_pool_member (mkEnv 0.5%float 7 0) "rand_tool" ∅
              (emulator_of random_mock false) random_mock)
    as (r & Hin & _ & Hcall & _).
  - reflexivity.
  - reflexivity.
  - reflexivity.
  - discriminate.
  - exists r. split; [exact Hin|exact Hcall].
Defined.

(** X4.  A conditional mock that has no [conditions] at all selects the
    first element of a non-empty pool for every payload, when no fault is
    injected; the call returns it, or raises what [time.sleep] raises for
    the simulated latency. *)
Theorem conditional_without_conditions_first env name input_data s mock r rest :
  _mocks (self s) !! name = Some mock ->
  behavior mock = MockBehavior.conditional ->
  conditions mock = None ->
  fault_injected env mock = false ->
  responses mock = r :: rest ->
  _select_response env mock input_data s = (inr r, s) /\
  fst (call env name input_data s) = call_outcome env (_config (self s)) r.
Proof.
  intros Hm Hb Hc Hf Hr.
  assert (responses mock <> []) as Hne by (rewrite Hr; discriminate).
  pose proof (match_conditional_none mock input_data r rest s Hc Hr) as Hsel.
  rewrite <- (select_conditional env mock input_data s Hf Hb Hne) in Hsel.
  split; [exact Hsel|].
  rewrite (call_registered _ _ _ _ _ _ _ Hm Hsel). reflexivity.
Qed.

Lemma conditional_without_conditions_first_witness :
  fst (call env0 "cond_tool" {[ "env" := PStr "staging" ]}
         (emulator_of
            (mkToolMock "cond_tool" MockBehavior.conditional
               [prod_response; other_response] 0%float None) false))
  = inr prod_response.
Proof.
  apply (conditional_without_conditions_first env0 "cond_tool"
           {[ "env" := PStr "staging" ]}
           (emulator_of
              (mkToolMock "cond_tool" MockBehavior.conditional
                 [prod_response; other_response] 0%float None) false)
           (mkToolMock "cond_tool" MockBehavior.conditional
              [prod_response; other_response] 0%float None)
           prod_response [other_response]);
    reflexivity.
Defined.

(** ** Sequential mocks among other calls *)

Lemma call_cursor_step env name input_data s mock :
  registry_ok s ->
  _mocks (self s) !! tool_name mock = Some mock ->
  behavior mock = MockBehavior.sequential ->
  responses mock <> [] ->
  cursor (tool_name mock) (snd (call env name input_data s)) =
  cursor (tool_name mock) s +
  (if String.eqb name (tool_name mock) && negb (fault_injected env mock)
   then 1 else 0).
Proof.
  intros Hok Hm Hb Hne. unfold cursor at 1.
  destruct (String.eqb_spec name (tool_name mock)) as [->|Hneq].
  - rewrite (call_positions _ _ _ _ _ Hm), select_state_cursor.
    rewrite (advances_sequential _ _ Hb Hne).
    rewrite bool_decide_eq_true_2 by reflexivity. rewrite andb_true_r.
    destruct (fault_injected env mock); simpl.
    + fold (cursor (tool_name mock) s). lia.
    + reflexivity.
  - simpl. rewrite Z.add_0_r.
    pose proof (call_spec env name input_data s) as H.
    destruct (_mocks (self s) !! name) as [mock'|] eqn:Hm'.
    + destruct H as (r & _ & ->). simpl. rewrite finish_self.
      rewrite select_state_cursor.
      rewrite (bool_decide_eq_false_2 (tool_name mock = tool_name mock'))
        by (rewrite (Hok name mock' Hm'); congruence).
      rewrite andb_false_r. reflexivity.
    + rewrite H. reflexivity.
Qed.

Lemma run_calls_mocks cs : forall s,
  _mocks (self (snd (run_calls cs s))) = _mocks (self s).
Proof.
  induction cs as [|[[env name] input_data] cs IH]; intros s; [reflexivity|].
  simpl. destruct (call_frame env name input_data s) as (_ & Hm & _).
  destruct (call env name input_data s) as [out s1]. simpl in Hm.
  specialize (IH s1). destruct (run_calls cs s1) as [outs s2].
  simpl in *. congruence.
Qed.

Lemma run_calls_cursor mock cs : forall s,
  registry_ok s ->
  _mocks (self s) !! tool_name mock = Some mock ->
  behavior mock = MockBehavior.sequential ->
  responses mock <> [] ->
  cursor (tool_name mock) (snd (run_calls cs s)) =
  cursor (tool_name mock) s + Z.of_nat (count_served mock cs).
Proof.
  induction cs as [|[[env name] input_data] cs IH]; intros s Hok Hm Hb Hne.
  - simpl. lia.
  - pose proof (call_cursor_step env name input_data s mock Hok Hm Hb Hne)
      as Hstep.
    pose proof (call_registry_ok env name input_data s Hok) as Hok1.
    destruct (call_frame env name input_data s) as (_ & Hmocks & _).
    simpl. destruct (call env name input_data s) as [out s1].
    simpl in Hstep, Hok1, Hmocks.
    assert (_mocks (self s1) !! tool_name mock = Some mock) as Hm1
      by (rewrite Hmocks; exact Hm).
    specialize (IH s1 Hok1 Hm1 Hb Hne).
    destruct (run_calls cs s1) as [outs s2]. simpl in *.
    rewrite IH, Hstep.
    destruct (String.eqb name (tool_name mock) && negb (fault_injected env mock));
      lia.
Qed.

(** X5.  Round robin holds among other traffic.  In an emulator that has
    just been reset or constructed, after any run of calls to any tools, a
    call to a sequential mock that is not fault-injected selects
    [responses[n mod k]], where [n] counts the earlier calls of the run that
    went to this tool and were not fault-injected, whether they returned or
    not: calls to other tools and injected faults do not move the position.
    The call returns the selection, or raises what [time.sleep] raises for
    the simulated latency. *)
Theorem interleaved_round_robin mock s0
    (cs : list (Env * string * gmap string pyobj)) env input_data :
  just_reset s0 ->
  registry_ok s0 ->
  _mocks (self s0) !! tool_name mock = Some mock ->
  behavior mock = MockBehavior.sequential ->
  responses mock <> [] ->
  fault_injected env mock = false ->
  exists r,
    responses mock !!
      Nat.modulo (count_served mock cs) (length (responses mock)) = Some r /\
    fst (call env (tool_name mock) input_data (snd (run_calls cs s0)))
      = call_outcome env (_config (self s0)) r.
Proof.
  intros Hj Hok Hm Hb Hne Hf.
  pose proof (run_calls_cursor mock cs s0 Hok Hm Hb Hne) as Hcur.
  rewrite (just_reset_cursor s0 _ Hj), Z.add_0_l in Hcur.
  assert (_mocks (self (snd (run_calls cs s0))) !! tool_name mock = Some mock)
    as Hm' by (rewrite run_calls_mocks; exact Hm).
  destruct (call_sequential env input_data _ mock Hm' Hb Hf Hne)
    as (r & Hr & Hcall & _).
  rewrite Hcur, <- Nat2Z.inj_mod, Nat2Z.id in Hr.
  destruct (run_calls_log cs s0) as (_ & Hcfg & _). rewrite Hcfg in Hcall.
  exists r. split; [exact Hr|exact Hcall].
Qed.

Lemma interleaved_round_robin_witness :
  exists r,
    responses sequential_mock !! 2%nat = Some r /\
    fst (call env0 "seq_tool" ∅
           (snd (run_calls
                   [(env0, "seq_tool", ∅); (env0, "static_tool", ∅);
                    (env0, "ghost", ∅); (env0, "seq_tool", ∅);
                    (env0, "error_tool", ∅)]
                   (__init__ multi_mock_config ∅))))
    = call_outcome env0 multi_mock_config r.
Proof.
  apply (interleaved_round_robin sequential_mock
           (__init__ multi_mock_config ∅)
           [(env0, "seq_tool", ∅); (env0, "static_tool", ∅);
            (env0, "ghost", ∅); (env0, "seq_tool", ∅);
            (env0, "error_tool", ∅)] env0 ∅).
  - right. exists multi_mock_config, ∅. reflexivity.
  - apply init_registry_ok.
  - reflexivity.
  - reflexivity.
  - discriminate.
  - reflexivity.
Defined.



(** ** Invariants of the reachable states *)

Lemma cursor_nonneg name s : cursors_positive s -> 0 <= cursor name s.
Proof.
  intros Hpos. unfold cursor.
  destruct (_sequence_positions (self s) !! name) as [pos|] eqn:Hp; simpl.
  - specialize (Hpos name pos Hp). lia.
  - lia.
Qed.

Lemma call_cursors_positive env name input_data s :
  cursors_positive s -> cursors_positive (snd (call env name input_data s)).
Proof.
  intros Hpos n pos.
  pose proof (call_spec env name input_data s) as H.
  destruct (_mocks (self s) !! name) as [mock|].
  - destruct H as (r & _ & ->). simpl. rewrite finish_self.
    rewrite select_state_cursor.
    destruct (advances env mock && bool_decide (n = tool_name mock)).
    + intros [= <-]. pose proof (cursor_nonneg (tool_name mock) s Hpos). lia.
    + apply Hpos.
  - rewrite H. apply Hpos.
Qed.

Lemma reachable_cursors_positive s : reachable s -> cursors_positive s.
Proof.
  induction 1 as [config h|env name input_data s _ IH|s _ IH|s _ IH
                 |mock s _ IH|l f s _ IH _].
  - intros n pos Hn. simpl in Hn. rewrite lookup_empty in Hn. discriminate.
  - apply call_cursors_positive, IH.
  - exact IH.
  - intros n pos Hn. simpl in Hn. rewrite lookup_empty in Hn. discriminate.
  - exact IH.
  - exact IH.
Qed.

(** X7.  In every state that a program can reach through the constructor
    and the public methods, each mock is stored under its own name, the
    emulator's list of recorded calls exists, and every stored cursor is at
    least one. *)
Theorem reachable_states_invariant s :
  reachable s -> registry_ok s /\ log_allocated s /\ cursors_positive s.
Proof.
  intros Hr. destruct (reachable_invariant s Hr) as [Hok Hlog].
  split; [exact Hok|]. split; [exact Hlog|].
  apply reachable_cursors_positive, Hr.
Qed.

Lemma reachable_states_invariant_witness :
  cursors_positive
    (snd (call env0 "seq_tool" ∅ (__init__ multi_mock_config ∅))).
Proof.
  apply (reachable_states_invariant
           (snd (call env0 "seq_tool" ∅ (__init__ multi_mock_config ∅)))).
  apply reach_call, reach_init.
Defined.

(** ** The simulated latency *)

Lemma finish_slept env name input_data r s :
  slept (finish env name input_data r s) =
  (slept s ++ sleep_of (default_latency_ms (_config (self s))) r)%list.
Proof.
  unfold finish, sleep_of.
  destruct (wait_raises env (_config (self s)) r);
    destruct (PrimFloat.ltb 0 (latency_ms r)) eqn:Hr.
  - rewrite Hr. reflexivity.
  - destruct (PrimFloat.ltb 0 (default_latency_ms (_config (self s))));
      simpl; rewrite ?app_nil_r; reflexivity.
  - rewrite Hr. destruct (record_calls (_config (self s))); reflexivity.
  - destruct (PrimFloat.ltb 0 (default_latency_ms (_config (self s))));
      destruct (record_calls (_config (self s))); simpl;
      rewrite ?app_nil_r; reflexivity.
Qed.

(** The trace of a call to a registered tool, in terms of what was
    selected, whether or not the wait raised. *)
Lemma call_slept_selected env name input_data s mock :
  _mocks (self s) !! name = Some mock ->
  exists r,
    fst (_select_response env mock input_data s) = inr r /\
    fst (call env name input_data s) = call_outcome env (_config (self s)) r /\
    slept (snd (call env name input_data s)) =
    (slept s ++ sleep_of (default_latency_ms (_config (self s))) r)%list.
Proof.
  intros Hm. pose proof (call_spec env name input_data s) as H.
  rewrite Hm in H. destruct H as (r & Hsel & Hcall).
  exists r. rewrite Hsel, Hcall. simpl.
  destruct (select_state_self env mock s) as (Hc & _ & _ & _ & Hs).
  rewrite finish_slept, Hc, Hs. auto.
Qed.

Lemma call_slept env name input_data s r :
  fst (call env name input_data s) = inr r ->
  slept (snd (call env name input_data s)) =
  (slept s ++ sleep_of (default_latency_ms (_config (self s))) r)%list.
Proof.
  intros Hcall. pose proof (call_spec env name input_data s) as H.
  destruct (_mocks (self s) !! name) as [mock|] eqn:Hm.
  - destruct (call_slept_selected env name input_data s mock Hm)
      as (r' & _ & Hout & Hslept).
    rewrite Hslept. rewrite Hout in Hcall. unfold call_outcome in Hcall.
    destruct (wait_raises env (_config (self s)) r'); [discriminate|].
    injection Hcall as ->. reflexivity.
  - rewrite H in Hcall. discriminate.
Qed.

(** X8.  The wait of a call.  A call to a registered tool passes to
    [time.sleep] at most one value, decided by the response that was
    selected: its latency, in seconds, when that latency is above zero;
    else the configured default latency, in seconds, when that is above
    zero; else nothing.  A default that is zero or negative is never slept.
    This holds whether [time.sleep] then returns or raises. *)
Theorem call_sleeps env name input_data s mock :
  _mocks (self s) !! name = Some mock ->
  exists r,
    fst (_select_response env mock input_data s) = inr r /\
    (PrimFloat.ltb 0 (latency_ms r) = true ->
     slept (snd (call env name input_data s))
       = (slept s ++ [(latency_ms r / 1000)%float])%list) /\
    (PrimFloat.ltb 0 (latency_ms r) = false ->
     PrimFloat.ltb 0 (default_latency_ms (_config (self s))) = true ->
     slept (snd (call env name input_data s))
       = (slept s ++ [(default_latency_ms (_config (self s)) / 1000)%float])%list) /\
    (PrimFloat.ltb 0 (latency_ms r) = false ->
     PrimFloat.ltb 0 (default_latency_ms (_config (self s))) = false ->
     slept (snd (call env name input_data s)) = slept s).
Proof.
  intros Hm.
  destruct (call_slept_selected env name input_data s mock Hm)
    as (r & Hsel & _ & Hslept).
  exists r. split; [exact Hsel|].
  rewrite Hslept. unfold sleep_of.
  split; [|split].
  - intros ->. reflexivity.
  - intros -> ->. reflexivity.
  - intros -> ->. apply app_nil_r.
Qed.

Lemma call_sleeps_witness :
  slept (snd (call env0 "latency_tool" ∅
                (__init__ (mkEmulatorConfig [latency_mock] 50%float false) ∅)))
  = [(100 / 1000)%float].
Proof.
  destruct (call_sleeps env0 "latency_tool" ∅
              (__init__ (mkEmulatorConfig [latency_mock] 50%float false) ∅)
              latency_mock eq_refl)
    as (r & Hr & Hown & _).
  change (fst (_select_response env0 latency_mock ∅
                 (__init__ (mkEmulatorConfig [latency_mock] 50%float false) ∅)))
    with (@inr exn _ (mkMockResponse 200 ∅ 100%float ∅)) in Hr.
  injection Hr as <-. rewrite Hown; reflexivity.
Defined.

(** X9.  The responses that the engine builds itself carry no latency: a
    call that is fault-injected, served by the [error] policy, or served
    from an empty pool waits the default latency when that is above zero,
    and does not wait otherwise, whatever latencies the pool declares. *)
Theorem synthetic_responses_wait_default env name input_data s mock :
  _mocks (self s) !! name = Some mock ->
  fault_injected env mock = true \/
  behavior mock = MockBehavior.error \/
  responses mock = [] ->
  slept (snd (call env name input_data s)) =
  (slept s ++
   if PrimFloat.ltb 0 (default_latency_ms (_config (self s)))
   then [(default_latency_ms (_config (self s)) / 1000)%float] else [])%list.
Proof.
  intros Hm Hcase.
  assert (exists r, _select_response env mock input_data s = (inr r, s) /\
                    latency_ms r = 0%float) as (r & Hsel & Hlat).
  { destruct (fault_injected env mock) eqn:Hf.
    - exists (injected_error mock). split; [|reflexivity].
      apply select_fault, Hf.
    - destruct (decide (behavior mock = MockBehavior.error)) as [Hb|Hb].
      + exists (tool_error mock). split; [|reflexivity].
        apply select_error; assumption.
      + destruct Hcase as [?|[?|He]]; try congruence.
        exists (MockResponse_of 200 ∅). split; [|reflexivity].
        apply select_empty; assumption. }
  rewrite (call_registered _ _ _ _ _ _ _ Hm Hsel). simpl.
  rewrite finish_slept. unfold sleep_of. rewrite Hlat. reflexivity.
Qed.

Lemma synthetic_responses_wait_default_witness :
  let slow_error :=
    mkToolMock "error_tool" MockBehavior.error
      [mkMockResponse 200 ∅ 100%float ∅] 0%float None in
  slept (snd (call env0 "error_tool" ∅
                (__init__ (mkEmulatorConfig [slow_error] 50%float true) ∅)))
  = [(50 / 1000)%float].
Proof.
  cbv zeta.
  rewrite (synthetic_responses_wait_default env0 "error_tool" ∅
             (__init__
                (mkEmulatorConfig
                   [mkToolMock "error_tool" MockBehavior.error
                      [mkMockResponse 200 ∅ 100%float ∅] 0%float None]
                   50%float true) ∅)
             (mkToolMock "error_tool" MockBehavior.error
                [mkMockResponse 200 ∅ 100%float ∅] 0%float None)).
  - reflexivity.
  - reflexivity.
  - right. left. reflexivity.
Defined.

(** X10.  A latency that is not a number passes the latency validator,
    which only refuses values below zero (the error_rate validator refuses
    it), and a response that carries it is treated as having no latency:
    the call waits the default latency when that is above zero, and does
    not wait otherwise. *)
Theorem nan_latency_waits_default env name input_data s r :
  fst (call env name input_data s) = inr r ->
  latency_ms r = PrimFloat.nan ->
  latency_must_be_non_negative (latency_ms r) = true /\
  error_rate_must_be_fraction PrimFloat.nan = false /\
  slept (snd (call env name input_data s)) =
  (slept s ++
   if PrimFloat.ltb 0 (default_latency_ms (_config (self s)))
   then [(default_latency_ms (_config (self s)) / 1000)%float] else [])%list.
Proof.
  intros Hcall Hnan. rewrite (call_slept _ _ _ _ _ Hcall).
  unfold sleep_of. rewrite Hnan. repeat split.
Qed.

Lemma nan_latency_waits_default_witness :
  let odd :=
    mkToolMock "t" MockBehavior.static
      [mkMockResponse 200 ∅ PrimFloat.nan ∅] 0%float None in
  slept (snd (call env0 "t" ∅
                (__init__ (mkEmulatorConfig [odd] 50%float true) ∅)))
  = [(50 / 1000)%float].
Proof.
  cbv zeta.
  apply (nan_latency_waits_default env0 "t" ∅
           (__init__
              (mkEmulatorConfig
                 [mkToolMock "t" MockBehavior.static
                    [mkMockResponse 200 ∅ PrimFloat.nan ∅] 0%float None]
                 50%float true) ∅)
           (mkMockResponse 200 ∅ PrimFloat.nan ∅));
    reflexivity.
Defined.

(** ** Validity of what is returned *)

(** X11.  Whatever [call] returns is a response that the validators of
    [MockResponse] accept, provided the pool of the mock holds only such
    responses: the 500 and 200 responses that the engine builds itself are
    always accepted. *)
Theorem call_returns_valid env name input_data s mock r :
  _mocks (self s) !! name = Some mock ->
  (forall r', r' ∈ responses mock -> MockResponse_valid r' = true) ->
  fst (call env name input_data s) = inr r ->
  MockResponse_valid r = true.
Proof.
  intros Hm Hpool Hcall.
  pose proof (call_spec env name input_data s) as H. rewrite Hm in H.
  destruct H as (r' & Hsel & Heq). rewrite Heq in Hcall. simpl in Hcall.
  unfold call_outcome in Hcall.
  destruct (wait_raises env (_config (self s)) r'); [discriminate|].
  injection Hcall as ->.
  destruct (fault_injected env mock) eqn:Hf.
  - rewrite (select_fault env mock input_data s Hf) in Hsel.
    injection Hsel as <- _. reflexivity.
  - destruct (select_policy_result _ _ _ _ _ _ Hf Hsel)
      as [[_ ->]|[(_ & _ & ->)|[_ Hin]]]; [reflexivity|reflexivity|].
    apply Hpool, Hin.
Qed.

Lemma call_returns_valid_witness :
  MockResponse_valid (MockResponse_of 200 {[ "step" := PInt 1 ]}) = true.
Proof.
  apply (call_returns_valid env0 "seq_tool" ∅ (__init__ multi_mock_config ∅)
           sequential_mock (MockResponse_of 200 {[ "step" := PInt 1 ]}));
    [reflexivity| |reflexivity].
  intros r Hin. simpl in Hin.
  repeat (apply elem_of_cons in Hin as [->|Hin]; [reflexivity|]).
  apply elem_of_nil in Hin. destruct Hin.
Defined.

(** ** Copies of the log *)

Lemma finish_list_at_ne env name input_data r s l :
  l <> _recorded_calls (self s) ->
  list_at l (finish env name input_data r s) = list_at l s.
Proof.
  intros Hne. unfold finish.
  set (s1 := if PrimFloat.ltb 0 _ then _ else s).
  assert (self s1 = self s /\ heap s1 = heap s) as [Hs Hh].
  { subst s1. destruct (PrimFloat.ltb 0 _); split; reflexivity. }
  assert (list_at l s1 = list_at l s) as Hl
    by (unfold list_at; rewrite Hh; reflexivity).
  destruct (wait_raises env (_config (self s)) r); [exact Hl|].
  destruct (record_calls (_config (self s))); [|exact Hl].
  rewrite list_at_mutate_ne by (rewrite Hs; congruence). exact Hl.
Qed.

Lemma call_list_at_ne env name input_data s l :
  l <> _recorded_calls (self s) ->
  list_at l (snd (call env name input_data s)) = list_at l s.
Proof.
  intros Hne. pose proof (call_spec env name input_data s) as H.
  destruct (_mocks (self s) !! name) as [mock|].
  - destruct H as (r & _ & ->). simpl.
    destruct (select_state_self env mock s) as (_ & _ & Hl & Hh & _).
    rewrite finish_list_at_ne by (rewrite Hl; exact Hne).
    unfold list_at. rewrite Hh. reflexivity.
  - rewrite H. reflexivity.
Qed.

Lemma run_calls_list_at_ne cs : forall s l,
  l <> _recorded_calls (self s) ->
  list_at l (snd (run_calls cs s)) = list_at l s.
Proof.
  induction cs as [|[[env name] input_data] cs IH]; intros s l Hne;
    [reflexivity|].
  simpl. pose proof (call_list_at_ne env name input_data s l Hne) as Hl.
  destruct (call_frame env name input_data s) as (_ & _ & Hloc & _).
  destruct (call env name input_data s) as [out s1]. simpl in Hl, Hloc.
  assert (l <> _recorded_calls (self s1)) as Hne1 by (rewrite Hloc; exact Hne).
  specialize (IH s1 l Hne1). destruct (run_calls cs s1) as [outs s2].
  simpl in *. congruence.
Qed.

(** X12.  The list handed out by [get_recorded_calls] is a snapshot: it
    holds the log as it was, and keeps holding exactly that after any later
    run of calls and after a [reset] that empties the log. *)
Theorem snapshot_survives s (cs : list (Env * string * gmap string pyobj)) :
  log_allocated s ->
  exists l,
    fst (get_recorded_calls s) = inr l /\
    list_at l (snd (get_recorded_calls s)) = log s /\
    list_at l (snd (run_calls cs (snd (get_recorded_calls s)))) = log s /\
    list_at l (snd (reset (snd (run_calls cs (snd (get_recorded_calls s))))))
      = log s /\
    log (snd (reset (snd (run_calls cs (snd (get_recorded_calls s)))))) = [].
Proof.
  intros Hin. pose proof (fresh_loc_not_log s Hin) as Hfresh.
  exists (fresh (dom (heap s))). split; [reflexivity|].
  assert (list_at (fresh (dom (heap s))) (snd (get_recorded_calls s)) = log s)
    as Hcopy.
  { unfold list_at at 1, get_recorded_calls. simpl.
    rewrite lookup_insert_eq. reflexivity. }
  split; [exact Hcopy|].
  assert (fresh (dom (heap s))
          <> _recorded_calls (self (snd (get_recorded_calls s)))) as Hne
    by exact Hfresh.
  pose proof (run_calls_list_at_ne cs _ _ Hne) as Hrun.
  rewrite Hcopy in Hrun. split; [exact Hrun|].
  destruct (run_calls_log cs (snd (get_recorded_calls s))) as (_ & _ & Hloc & _).
  set (s2 := snd (run_calls cs (snd (get_recorded_calls s)))) in *.
  rewrite reset_state. simpl snd. split.
  - change (list_at (fresh (dom (heap s)))
              (list_mutate (_recorded_calls (self s2)) (fun _ => []) s2)
            = log s).
    rewrite list_at_mutate_ne by (rewrite Hloc; congruence). exact Hrun.
  - unfold log. simpl self. apply list_at_mutate.
Qed.

Lemma snapshot_survives_witness :
  let s := snd (call env0 "static_tool" ∅ (emulator_of static_mock true)) in
  exists l,
    fst (get_recorded_calls s) = inr l /\
    list_at l
      (snd (reset (snd (run_calls [(env0, "static_tool", ∅)]
                          (snd (get_recorded_calls s))))))
    = [mkRecordedCall "static_tool" ∅ ok_response 0].
Proof.
  cbv zeta.
  destruct (snapshot_survives
              (snd (call env0 "static_tool" ∅ (emulator_of static_mock true)))
              [(env0, "static_tool", ∅)])
    as (l & Hl & _ & _ & Hreset & _).
  - apply call_log_allocated, init_log_allocated.
  - exists l. split; [exact Hl|]. rewrite Hreset. reflexivity.
Defined.

(** ** The HTTP handlers *)

(** X13.  [POST /tools/{tool_name}] raises the 404 for a name with no
    mock, and then leaves the emulator as it was.  For a registered name
    the emulator ends as [call] leaves it for the payload (the empty dict
    when the payload is absent or empty); an error of [call], which is then
    that of [time.sleep], passes through and is never turned into the 404;
    and when [call] returns, the handler ends as the construction of the
    [JSONResponse] from the body, status code and headers of the response
    ends, the call staying recorded if the construction raises. *)
Theorem call_tool_outcomes
    (JSONResponse_new :
       gmap string pyobj -> Z -> gmap string string -> exn + JSONResponse)
    env name payload s :
  (forall seconds n, sleep_raises env seconds <> Some (ToolNotFoundError n)) ->
  let input_data : gmap string pyobj :=
    match payload with
    | Some d => if (size d =? 0)%nat then ∅ else d
    | None => ∅
    end in
  match _mocks (self s) !! name with
  | None =>
      call_tool JSONResponse_new env name payload s =
      (inl (HTTPException 404 ("Tool '" ++ name ++ "' not registered")), s)
  | Some mock =>
      snd (call_tool JSONResponse_new env name payload s)
        = snd (call env name input_data s) /\
      match fst (call env name input_data s) with
      | inl e =>
          fst (call_tool JSONResponse_new env name payload s)
            = inl (Propagated e)
      | inr r =>
          fst (call_tool JSONResponse_new env name payload s) =
          match JSONResponse_new (body r) (status_code r) (headers r) with
          | inl e => inl (Propagated e)
          | inr answer => inr answer
          end
      end
  end.
Proof.
  intros Hsleep input_data. unfold call_tool. fold input_data.
  pose proof (call_spec env name input_data s) as H.
  destruct (_mocks (self s) !! name) as [mock|] eqn:Hm.
  - destruct H as (r & _ & Hcall). rewrite Hcall. simpl.
    unfold call_outcome, wait_raises.
    destruct (PrimFloat.ltb 0 _); simpl.
    + destruct (sleep_raises env _) as [e|] eqn:He; simpl.
      * destruct e; try (split; reflexivity).
        exfalso. eapply Hsleep, He.
      * destruct (JSONResponse_new _ _ _); split; reflexivity.
    + destruct (JSONResponse_new _ _ _); split; reflexivity.
  - rewrite H. reflexivity.
Qed.

Lemma call_tool_outcomes_witness :
  let render (content : gmap string pyobj) (status : Z)
        (hdrs : gmap string string) : exn + JSONResponse :=
    inr (mkJSONResponse content status hdrs) in
  let flaky :=
    mkToolMock "seq_tool" MockBehavior.sequential (responses sequential_mock)
      0.75%float None in
  call_tool render env0 "ghost" None (emulator_of flaky true)
    = (inl (HTTPException 404 "Tool 'ghost' not registered"),
       emulator_of flaky true) /\
  snd (call_tool render env0 "seq_tool" None (emulator_of flaky true))
    = snd (call env0 "seq_tool" ∅ (emulator_of flaky true)).
Proof.
  cbv zeta.
  assert (forall seconds n,
            sleep_raises env0 seconds <> Some (ToolNotFoundError n)) as Hsleep.
  { intros seconds n. simpl. unfold time_sleep_raises.
    destruct (negb _); [discriminate|]. destruct (negb _); [discriminate|].
    destruct (PrimFloat.ltb _ _); discriminate. }
  split.
  - apply (call_tool_outcomes
             (fun content status hdrs =>
                inr (mkJSONResponse content status hdrs))
             env0 "ghost" None
             (emulator_of
                (mkToolMock "seq_tool" MockBehavior.sequential
                   (responses sequential_mock) 0.75%float None) true) Hsleep).
  - apply (call_tool_outcomes
             (fun content status hdrs =>
                inr (mkJSONResponse content status hdrs))
             env0 "seq_tool" None
             (emulator_of
                (mkToolMock "seq_tool" MockBehavior.sequential
                   (responses sequential_mock) 0.75%float None) true) Hsleep).
Defined.

(** X14.  [GET /calls] lists the dump of every recorded call, oldest
    first, and [DELETE /calls] answers with its fixed body and makes the
    next [GET /calls] return the empty list; listing the calls does not
    change the log. *)
Theorem get_calls_lists_log (model_dump : RecordedCall -> pyobj) s :
  fst (get_calls model_dump s) = inr (map model_dump (log s)) /\
  fst (reset_calls s) = inr {[ "status" := "reset" ]} /\
  fst (get_calls model_dump (snd (reset_calls s))) = inr [] /\
  (log_allocated s -> log (snd (get_calls model_dump s)) = log s).
Proof.
  assert (forall s', fst (get_calls model_dump s')
                     = inr (map model_dump (log s'))) as Hget.
  { intros s'. unfold get_calls, bind, gets, get_recorded_calls. simpl.
    unfold list_at at 1. simpl. rewrite lookup_insert_eq. reflexivity. }
  split; [apply Hget|]. split; [reflexivity|]. split.
  - rewrite Hget.
    change (log (snd (reset_calls s)))
      with (list_at (_recorded_calls (self s))
              (list_mutate (_recorded_calls (self s)) (fun _ => []) s)).
    rewrite list_at_mutate. reflexivity.
  - intros Hin. unfold get_calls, bind, gets, get_recorded_calls. simpl.
    unfold log, list_at. simpl.
    rewrite lookup_insert_ne by (apply fresh_loc_not_log, Hin). reflexivity.
Qed.

Lemma get_calls_lists_log_witness :
  let s := snd (call env0 "static_tool" ∅ (emulator_of static_mock true)) in
  log (snd (get_calls (fun c => PStr (call_tool_name c)) s)) = log s /\
  fst (get_calls (fun c => PStr (call_tool_name c)) s)
    = inr [PStr "static_tool"].
Proof.
  cbv zeta.
  destruct (get_calls_lists_log (fun c => PStr (call_tool_name c))
              (snd (call env0 "static_tool" ∅ (emulator_of static_mock true))))
    as (Hlist & _ & _ & Hlog).
  split.
  - apply Hlog, call_log_allocated, init_log_allocated.
  - rewrite Hlist. reflexivity.
Defined.

(** ** The log across all the public methods *)

Lemma run_op_frame o s :
  log_allocated s ->
  _config (self (snd (run_op o s))) = _config (self s) /\
  log_allocated (snd (run_op o s)) /\
  log (snd (run_op o s)) =
    match o, fst (run_op o s) with
    | op_call env name input_data, Some (inr r) =>
        if record_calls (_config (self s))
        then (log s ++ [mkRecordedCall name input_data r (now env)])%list
        else log s
    | op_reset, _ => []
    | _, _ => log s
    end.
Proof.
  intros Hin. destruct o as [env name input_data|mock| |]; simpl.
  - destruct (call_frame env name input_data s) as (Hc & _ & _ & Hlog).
    split; [exact Hc|]. split; [apply call_log_allocated, Hin|].
    rewrite Hlog.
    destruct (fst (call env name input_data s));
      destruct (record_calls (_config (self s)));
      rewrite ?app_nil_r; reflexivity.
  - repeat split. exact Hin.
  - split; [reflexivity|].
    split; [apply get_recorded_calls_log_allocated, Hin|].
    unfold log, list_at. simpl.
    rewrite lookup_insert_ne by (apply fresh_loc_not_log, Hin). reflexivity.
  - split; [reflexivity|]. split.
    + apply (mutate_log_allocated _ _ s), Hin.
    + unfold log. simpl self. apply list_at_mutate.
Qed.

(** X15.  Whatever a client does through the public methods, the log is
    the record of its calls since the last reset: over any run of [call],
    [add_mock], [get_recorded_calls] and [reset], the log ends as the
    records of the calls that returned after the last [reset], oldest
    first, when recording is on, and is never added to when it is off;
    [add_mock] and [get_recorded_calls] never change it. *)
Theorem log_is_calls_since_reset os : forall s,
  log_allocated s ->
  log (snd (run_ops os s)) =
  log_after (record_calls (_config (self s))) os (fst (run_ops os s)) (log s).
Proof.
  induction os as [|o os IH]; intros s Hin; [reflexivity|].
  destruct (run_op_frame o s Hin) as (Hc & Hin1 & Hlog).
  simpl. specialize (IH (snd (run_op o s)) Hin1).
  destruct (run_ops os (snd (run_op o s))) as [outs s2]. simpl in *.
  rewrite IH, Hc, Hlog.
  destruct o as [env name input_data|mock| |]; simpl; try reflexivity.
  destruct (fst (call env name input_data s)); reflexivity.
Qed.

Lemma log_is_calls_since_reset_witness :
  log (snd (run_ops
              [op_call env0 "static_tool" ∅; op_reset;
               op_call env0 "ghost" ∅; op_add_mock error_mock;
               op_get_recorded_calls; op_call env0 "error_tool" ∅]
              (emulator_of static_mock true)))
  = [mkRecordedCall "error_tool" ∅ (tool_error error_mock) 0].
Proof.
  rewrite (log_is_calls_since_reset
             [op_call env0 "static_tool" ∅; op_reset;
              op_call env0 "ghost" ∅; op_add_mock error_mock;
              op_get_recorded_calls; op_call env0 "error_tool" ∅]
             (emulator_of static_mock true)).
  - reflexivity.
  - apply init_log_allocated.
Defined.
